(** * SharePointOnlineCopy: the upload pipeline of [spo_controller.py] and [main.py]

    A shallow embedding of the controller class [SpoController] and of the
    wrapper [manage_spo], followed by the properties of the chunked transfer,
    of the retention loop and of the gates between the stages.

    Conventions of the embedding.
    - Python [int] is [Z]; [str] is [string]; a [dict] with string keys is a
      [gmap string _]; a [list] is a [list].
    - Every call that leaves the process ([msal], [requests]) is appended to a
      log, the [world]; what comes back is decided by an [environment], which
      may look at the whole log so far.  The remote side always answers: the
      exceptions [requests] raises on time-out or on a lost connection are not
      part of the model.
    - An exception is an [outcome]; a [while] loop runs on fuel and reports
      [Spin] when the fuel is used up.
    - [int(file_size / CHUNK_SIZE)] is a division in floating point followed
      by a truncation, and is embedded as such; the length of a file is an
      [off_t].
    - Calls to [logger] have no effect on what is computed and are left out,
      and with them [check_debug]. *)

From stdpp Require Import gmap strings list fin_maps pretty.
From Stdlib Require Import ZArith Lia.

Local Open Scope string_scope.
Local Open Scope list_scope.
Local Open Scope Z_scope.

(** ** Python built-ins used by the program *)

Module Py.

(** [not s] for a string: the empty string is the only falsy one. *)
Definition not_str (s : string) : bool :=
  match s with EmptyString => true | String _ _ => false end.

(** [c in chars] for a one-character string [c]. *)
Fixpoint char_in (c : Ascii.ascii) (chars : string) : bool :=
  match chars with
  | EmptyString => false
  | String d rest => if Ascii.eqb c d then true else char_in c rest
  end.

(** [s.rstrip(chars)]: drop the characters at the end of [s] for as long as
    they belong to [chars]. *)
Fixpoint rstrip (chars s : string) : string :=
  match s with
  | EmptyString => EmptyString
  | String c rest =>
      match rstrip chars rest with
      | EmptyString => if char_in c chars then EmptyString else String c EmptyString
      | String _ _ as kept => String c kept
      end
  end.

(** [s.split(sep, maxsplit=1)[0]]: what comes before the first occurrence
    of [sep], the whole of [s] when there is none. *)
Fixpoint split_head (sep s : string) : string :=
  match s with
  | EmptyString => EmptyString
  | String c rest =>
      if String.prefix sep s then EmptyString else String c (split_head sep rest)
  end.

(** Every character of [t] belongs to [chars]. *)
Fixpoint all_in (chars t : string) : bool :=
  match t with
  | EmptyString => true
  | String c rest => char_in c chars && all_in chars rest
  end.

(** [s.removesuffix(suffix)], the operation [rstrip] is compared with. *)
Fixpoint removesuffix (suffix s : string) : string :=
  if String.eqb s suffix then EmptyString
  else match s with
       | EmptyString => EmptyString
       | String c rest => String c (removesuffix suffix rest)
       end.

(** [str(n)] for an integer. *)
Definition str (n : Z) : string := pretty n.

(** The integer nearest to [n / d], the even one of the two when both are
    as near ([0 <= n], [0 < d]). *)
Definition round_half_even (n d : Z) : Z :=
  let q := n / d in
  match 2 * (n mod d) ?= d with
  | Lt => q
  | Eq => if Z.even q then q else q + 1
  | Gt => q + 1
  end.

(** [int(a / b)] for integers [0 <= a] and [0 < b].  [a / b] is a double: the
    one nearest to the quotient of the two integers, which CPython rounds
    once, to a significand of 53 bits, ties going to the even significand;
    [int] then drops the fraction.  [e] is the exponent of the last bit of
    the significand: [2^52 <= a / (b * 2^e) < 2^53].  From [2^53] on not every
    integer is a double, so the result need not be the integer quotient.
    (A quotient of 2^1024 or more is [OverflowError]; with a file length for
    [a], below 2^63, the quotient is far from it.) *)
Definition int_truediv (a b : Z) : Z :=
  if a =? 0 then 0
  else
    let k := Z.log2 a - Z.log2 b in
    let below := if 0 <=? k then a <? b * 2 ^ k else a * 2 ^ (- k) <? b in
    let e := (if below then k - 1 else k) - 52 in
    if 0 <=? e then round_half_even a (b * 2 ^ e) * 2 ^ e
    else round_half_even (a * 2 ^ (- e)) b / 2 ^ (- e).

(** [range(n)]. *)
Definition range (n : Z) : list Z := seqZ 0 n.

(** [x in codes] for a list of integers. *)
Definition int_in (x : Z) (codes : list Z) : bool :=
  existsb (Z.eqb x) codes.

(** [d.get(key, "")] on a dictionary of strings. *)
Definition get_str (d : gmap string string) (key : string) : string :=
  default EmptyString (d !! key).

End Py.

(** ** [datetime] *)

Record datetime : Type := mk_datetime {
  year : Z; month : Z; day : Z; hour : Z; minute : Z; second : Z
}.

Module Datetime.

Definition is_leap (y : Z) : bool :=
  (y mod 4 =? 0) && (negb (y mod 100 =? 0) || (y mod 400 =? 0)).

Definition days_in_month (y m : Z) : Z :=
  if m =? 2 then (if is_leap y then 29 else 28)
  else if (m =? 4) || (m =? 6) || (m =? 9) || (m =? 11) then 30
  else 31.

(** The constructor [datetime(y, m, d, 0, 0, 0)]; [None] is [ValueError]. *)
Definition new (y m d : Z) : option datetime :=
  if (1 <=? y) && (y <=? 9999) && (1 <=? m) && (m <=? 12)
     && (1 <=? d) && (d <=? days_in_month y m)
  then Some (mk_datetime y m d 0 0 0)
  else None.

(** The fields in the order Python compares them. *)
Definition fields (t : datetime) : list Z :=
  [year t; month t; day t; hour t; minute t; second t].

Fixpoint lex_ltb (a b : list Z) : bool :=
  match a, b with
  | x :: a', y :: b' => (x <? y) || ((x =? y) && lex_ltb a' b')
  | [], _ :: _ => true
  | _, [] => false
  end.

(** [a < b] on naive datetimes. *)
Definition ltb (a b : datetime) : bool := lex_ltb (fields a) (fields b).

End Datetime.

(** ** The data that crosses the process boundary *)

(** A listing entry of the remote folder: a JSON object, read through its
    string members [id], [name] and [createdDateTime]. *)
Abbreviation item := (gmap string string).

(** A decoded JSON body: its string members, and its [value] member, which
    holds the folder listing. *)
Record jdict : Type := mk_jdict {
  members : gmap string string;
  value : option (list item)
}.

(** [requests.Response], as far as the program reads it.  [json] is [None]
    when the body is not JSON, where [resp.json()] raises. *)
Record response : Type := mk_response {
  status_code : Z;
  text : string;
  json : option jdict
}.

(** [msal.ConfidentialClientApplication], by the arguments it was built from. *)
Record msal_client : Type := mk_msal_client {
  app_client_id : string;
  app_authority : string;
  app_client_credential : string
}.

(** The local file: its length as [os.stat] reports it, an [off_t] (64 bits
    with a sign, so below 2^63), and its bytes by offset. *)
Record file : Type := mk_file {
  st_size : N;
  byte_at : Z -> Byte.byte;
  st_size_off_t : (st_size <? 2 ^ 63)%N = true
}.

(** A [bytes] object returned by [read]: the window of the file it holds. *)
Record chunk : Type := mk_chunk {
  chunk_offset : Z;
  chunk_len : Z
}.

(** The [Content-Range] of a chunk: first byte, last byte, total length. *)
Record content_range : Type := mk_range {
  range_start : Z;
  range_end : Z;
  range_total : Z
}.

(** The calls that leave the process. *)
Inductive call : Type :=
| AcquireTokenSilent (app : msal_client) (scopes : list string)
| AcquireTokenForClient (app : msal_client) (scopes : list string)
| Get (url : string) (headers : gmap string string)
| Post (url : string) (headers : gmap string string) (payload : gmap string string)
| Put (url : string) (content_length : Z) (range : content_range) (data : chunk)
| Delete (url : string) (headers : gmap string string).

Definition world : Type := list call.

(** Everything the program reads from outside. *)
Record environment : Type := mk_environment {
  os_environ : gmap string string;
  msal_reply : world -> call -> option (gmap string string);
  http_reply : world -> call -> response;
  utcnow : datetime;
  strptime : string -> string -> option datetime;
  files : string -> option file
}.

(** ** Outcomes and the monad of logged calls *)

Inductive exn : Type :=
| KeyError (key : string)
| ValueError
| JSONDecodeError
| FileNotFoundError.

Inductive outcome (A : Type) : Type :=
| Ret (a : A)
| Raise (e : exn)
| Spin.
Arguments Ret {A} a.
Arguments Raise {A} e.
Arguments Spin {A}.

Definition IO (A : Type) : Type := world -> outcome A * world.

Definition io_ret {A} (a : A) : IO A := fun w => (Ret a, w).

Definition io_bind {A B} (f : A -> IO B) (c : IO A) : IO B :=
  fun w =>
    match c w with
    | (Ret a, w') => f a w'
    | (Raise e, w') => (Raise e, w')
    | (Spin, w') => (Spin, w')
    end.

#[export] Instance IO_ret : MRet IO := @io_ret.
#[export] Instance IO_bind : MBind IO := @io_bind.

Definition raise {A} (e : exn) : IO A := fun w => (Raise e, w).
Definition spin {A} : IO A := fun w => (Spin, w).

(** An optional value, with the exception its absence stands for. *)
Definition or_raise {A} (e : exn) (o : option A) : IO A :=
  match o with Some a => mret a | None => raise e end.

(** ** [spo_controller.py] *)

Definition CHUNK_SIZE : Z := 10485760.
Definition DEFAULT_TIMEOUT : Z := 10.   (* a call that times out raises: not modelled *)
Definition MAX_BACKUPS : Z := 4.

Record SpoController : Type := mk_SpoController {
  authority : string;
  endpoint : string;
  scope : list string;
  client_id : string;
  secret : string;
  graph_token : gmap string string;
  client : option msal_client
}.

Module Spo.

Section Controller.

Variable E : environment.

(** [os.environ.get(key, "")]. *)
Definition environ_get (key : string) : string :=
  Py.get_str (os_environ E) key.

(** [__init__]. *)
Definition init : SpoController :=
  {| authority := environ_get "SPOBKP_AUTHORITY";
     endpoint := environ_get "SPOBKP_ENDPOINT";
     scope := [environ_get "SPOBKP_SCOPE"];
     client_id := environ_get "SPOBKP_CLIENTID";
     secret := environ_get "SPOBKP_SECRET";
     graph_token := ∅;
     client := None |}.

(** [dir(self)]: the names an instance answers to, in sorted order: those
    every object has, then the attributes and methods of the class. *)
Definition dir_self : list string :=
  [ "__class__"; "__delattr__"; "__dict__"; "__dir__"; "__doc__"; "__eq__";
    "__format__"; "__ge__"; "__getattribute__"; "__getstate__"; "__gt__";
    "__hash__"; "__init__"; "__init_subclass__"; "__le__"; "__lt__";
    "__module__"; "__ne__"; "__new__"; "__reduce__"; "__reduce_ex__";
    "__repr__"; "__setattr__"; "__sizeof__"; "__str__"; "__subclasshook__";
    "__weakref__"; "_delete_file"; "_get_upload_url"; "_manage_file_chunks";
    "authority"; "check_dir"; "check_token"; "cleanup_files"; "client";
    "client_id"; "connect_graph"; "create_dir"; "endpoint"; "get_dir_id";
    "graph_token"; "initialize_client"; "query_graph"; "scope"; "secret";
    "upload_file"; "validate_info" ].

(** The loop of [validate_info] over the names. *)
Fixpoint validate_props (props : list string) : bool :=
  match props with
  | [] => true
  | prop :: rest => if Py.not_str prop then false else validate_props rest
  end.

Definition validate_info (self : SpoController) : bool :=
  validate_props dir_self.

(** The calls, logged; the reply is the environment's. *)
Definition msal_call (c : call) : IO (option (gmap string string)) :=
  fun w => (Ret (msal_reply E w c), w ++ [c]).

Definition http_call (c : call) : IO response :=
  fun w => (Ret (http_reply E w c), w ++ [c]).

Definition initialize_client (self : SpoController) : SpoController :=
  {| authority := authority self;
     endpoint := endpoint self;
     scope := scope self;
     client_id := client_id self;
     secret := secret self;
     graph_token := graph_token self;
     client := Some (mk_msal_client (client_id self) (authority self) (secret self)) |}.

Definition set_graph_token (self : SpoController) (tok : gmap string string)
  : SpoController :=
  {| authority := authority self;
     endpoint := endpoint self;
     scope := scope self;
     client_id := client_id self;
     secret := secret self;
     graph_token := tok;
     client := client self |}.

(** [if result:] for an optional dictionary: [None] and the empty dictionary
    are falsy. *)
Definition truthy_dict (result : option (gmap string string)) : bool :=
  match result with
  | Some tok => negb (bool_decide (tok = ∅))
  | None => false
  end.

(** [connect_graph]: the controller comes back with the token it obtained,
    if any. *)
Definition connect_graph (self : SpoController) : IO SpoController :=
  let self := initialize_client self in
  match client self with
  | None => mret self
  | Some app =>
      result ← msal_call (AcquireTokenSilent app (scope self));
      if truthy_dict result then mret (set_graph_token self (default ∅ result))
      else
        result ← msal_call (AcquireTokenForClient app (scope self));
        match result with
        | Some tok =>
            if bool_decide (is_Some (tok !! "error")) then mret self
            else mret (set_graph_token self tok)
        | None => mret self
        end
  end.

Definition check_token (self : SpoController) : bool :=
  bool_decide (is_Some (graph_token self !! "access_token")).

(** [f"Bearer {self.graph_token['access_token']}"]; the subscript raises
    [KeyError] on a token without the key. *)
Definition bearer (self : SpoController) : IO string :=
  tok ← or_raise (KeyError "access_token") (graph_token self !! "access_token");
  mret ("Bearer " +:+ tok).

(** [resp.json()]. *)
Definition resp_json (resp : response) : IO jdict :=
  or_raise JSONDecodeError (json resp).

Definition query_graph (self : SpoController) (endpoint_arg : string) : IO jdict :=
  let endpoint_arg :=
    if Py.not_str endpoint_arg then endpoint self else endpoint_arg in
  auth ← bearer self;
  resp ← http_call (Get endpoint_arg
            {[ "Authorization" := auth; "Content-Type" := "application/json" ]});
  if negb (status_code resp =? 200) then
    mret (mk_jdict {[ "error" := text resp; "status" := Py.str (status_code resp) ]}
                   None)
  else resp_json resp.

Definition get_dir_id (self : SpoController) (directory : string) : IO string :=
  full_response ← query_graph self directory;
  mret (Py.get_str (members full_response) "id").

(** The request body of [_get_upload_url]; the nested [fileSystemInfo]
    object is given by its only member. *)
Definition url_payload (file_name : string) : gmap string string :=
  {[ "@microsoft.graph.conflictBehavior" := "replace";
     "description" := "Dashboard script repository archive.";
     "fileSystemInfo" := "microsoft.graph.fileSystemInfo";
     "name" := file_name ]}.

Definition _get_upload_url (self : SpoController) (dir_id file_name : string)
  : IO string :=
  let base_url := Py.split_head "/root:" (endpoint self) in
  let endpoint_url :=
    base_url +:+ "/items/" +:+ dir_id +:+ ":/" +:+ file_name +:+ ":/createUploadSession" in
  auth ← bearer self;
  resp ← http_call (Post endpoint_url
            {[ "Authorization" := auth; "Content-Type" := "application/json" ]}
            (url_payload file_name));
  (* a status outside [200, 201] is logged, nothing more *)
  body ← resp_json resp;
  mret (Py.get_str (members body) "uploadUrl").

(** [file_data.read(n)] at position [pos]: the bytes up to the end of the
    file, [n] at most, and the position after them. *)
Definition file_read (f : file) (pos n : Z) : chunk * Z :=
  let got := Z.min n (Z.max 0 (Z.of_N (st_size f) - pos)) in
  (mk_chunk pos got, pos + got).

(** The bytes a chunk holds. *)
Definition chunk_bytes (f : file) (c : chunk) : list Byte.byte :=
  byte_at f <$> seqZ (chunk_offset c) (chunk_len c).

Definition acceptable_codes : list Z := [200; 201; 202].

(** The headers of a chunk as they go on the wire: [str(bytes_read)] and
    [f"bytes {start}-{start + bytes_read - 1}/{file_size}"].  The calls of
    the log keep the numbers. *)
Definition range_text (r : content_range) : string :=
  "bytes " +:+ Py.str (range_start r) +:+ "-" +:+ Py.str (range_end r)
  +:+ "/" +:+ Py.str (range_total r).

Definition put_headers (bytes_read : Z) (r : content_range) : gmap string string :=
  {[ "Content-Length" := Py.str bytes_read; "Content-Range" := range_text r ]}.

(** The [for] loop of [_manage_file_chunks]: [pos] is the position of the
    open file, [start] the variable of that name. *)
Fixpoint chunk_loop (endpoint_url : string) (f : file) (file_size : Z)
    (chunk_nums : list Z) (pos start : Z) : IO bool :=
  match chunk_nums with
  | [] => mret true
  | chunk_num :: rest =>
      let '(data, pos') := file_read f pos CHUNK_SIZE in
      let bytes_read := chunk_len data in
      let upload_range := mk_range start (start + bytes_read - 1) file_size in
      resp ← http_call (Put endpoint_url bytes_read upload_range data);
      if negb (Py.int_in (status_code resp) acceptable_codes) then mret false
      else chunk_loop endpoint_url f file_size rest pos' (start + bytes_read)
  end.

Definition _manage_file_chunks (endpoint_url file_path : string) : IO bool :=
  f ← or_raise FileNotFoundError (files E file_path);
  let file_size := Z.of_N (st_size f) in
  let chunks := Py.int_truediv file_size CHUNK_SIZE + 1 in
  chunk_loop endpoint_url f file_size (Py.range chunks) 0 0.

Definition upload_file (self : SpoController) (dir_id file_path file_name : string)
  : IO bool :=
  upload_url ← _get_upload_url self dir_id file_name;
  if Py.not_str upload_url then mret false
  else _manage_file_chunks upload_url file_path.

Definition _delete_file (self : SpoController) (item_id : string) : IO bool :=
  let endpoint_url := Py.split_head "/root:" (endpoint self) +:+ "/items/" +:+ item_id in
  auth ← bearer self;
  resp ← http_call (Delete endpoint_url {[ "Authorization" := auth ]});
  if negb (status_code resp =? 204) then mret false else mret true.

(** One pass of the [for] loop of [cleanup_files] over an entry; the three
    variables are [oldest_timestamp], [oldest_filename] and [oldest_id].  An
    entry whose timestamp does not parse is passed over ([ValueError] is
    caught). *)
Definition scan_step (acc : datetime * string * string) (single_file : item)
  : datetime * string * string :=
  let '(oldest_timestamp, _, _) := acc in
  match strptime E (Py.get_str single_file "createdDateTime") "%Y-%m-%dT%H:%M:%SZ" with
  | Some current_file_time =>
      if Datetime.ltb current_file_time oldest_timestamp
      then (current_file_time, Py.get_str single_file "name", Py.get_str single_file "id")
      else acc
  | None => acc
  end.

Definition scan (dir_content : list item) (acc : datetime * string * string)
  : datetime * string * string :=
  fold_left scan_step dir_content acc.

(** [next((file for file in dir_content if file["id"] == oldest_id), {})];
    the subscript raises [KeyError] on an entry without an id. *)
Fixpoint find_match (dir_content : list item) (oldest_id : string) : IO item :=
  match dir_content with
  | [] => mret ∅
  | entry :: rest =>
      entry_id ← or_raise (KeyError "id") (entry !! "id");
      if String.eqb entry_id oldest_id then mret entry
      else find_match rest oldest_id
  end.

(** [l.remove(x)]: without the first element equal to [x]; [None] is the
    [ValueError] of a list that has none. *)
Fixpoint list_remove (x : item) (l : list item) : option (list item) :=
  match l with
  | [] => None
  | y :: rest =>
      if bool_decide (y = x) then Some rest
      else cons y <$> list_remove x rest
  end.

(** The [while] loop of [cleanup_files]; it hands back [dir_content] as it
    stands when the loop is left. *)
Fixpoint cleanup_loop (fuel : nat) (self : SpoController) (right_now : datetime)
    (dir_content : list item) (oldest_filename oldest_id : string)
  : IO (list item) :=
  if negb (MAX_BACKUPS <? Z.of_nat (length dir_content)) then mret dir_content
  else
    match fuel with
    | O => spin
    | S fuel' =>
        oldest_timestamp ←
          or_raise ValueError
            (Datetime.new (year right_now + 1) (month right_now) (day right_now));
        let '(_, oldest_filename, oldest_id) :=
          scan dir_content (oldest_timestamp, oldest_filename, oldest_id) in
        deleted ← _delete_file self oldest_id;
        if negb deleted then mret dir_content
        else
          found ← find_match dir_content oldest_id;
          if bool_decide (found = ∅)
          then cleanup_loop fuel' self right_now dir_content oldest_filename oldest_id
          else
            dir_content' ← or_raise ValueError (list_remove found dir_content);
            cleanup_loop fuel' self right_now dir_content' oldest_filename oldest_id
    end.

Definition cleanup_files (fuel : nat) (self : SpoController) : IO unit :=
  listing ← query_graph self (endpoint self);
  let dir_content := default [] (value listing) in
  let right_now := utcnow E in
  _ ← cleanup_loop fuel self right_now dir_content "" "";
  mret tt.

End Controller.

End Spo.

(** ** [main.py] *)

Module Main.

Section Pipeline.

Variable E : environment.

(** [manage_spo]; [fuel] bounds the loop of [cleanup_files]. *)
Definition manage_spo (fuel : nat) (tarball_path tarball_name : string) : IO unit :=
  let spo := Spo.init E in
  if negb (Spo.validate_info spo) then mret tt
  else
    spo ← Spo.connect_graph E spo;
    if negb (Spo.check_token spo) then mret tt
    else
      dir_id ← Spo.get_dir_id E spo (Py.rstrip ":/children/" (endpoint spo));
      if Py.not_str dir_id then mret tt
      else
        upload_status ← Spo.upload_file E spo dir_id tarball_path tarball_name;
        if upload_status : bool then Spo.cleanup_files E fuel spo
        else mret tt.

End Pipeline.

End Main.

(** ** Reading the log *)

Definition is_put (c : call) : bool :=
  match c with Put _ _ _ _ => true | _ => false end.

(** The calls that go over the network: all but the look-up in the token
    cache. *)
Definition is_network (c : call) : bool :=
  match c with AcquireTokenSilent _ _ => false | _ => true end.

Definition is_get (c : call) : bool :=
  match c with Get _ _ => true | _ => false end.

Definition is_delete (c : call) : bool :=
  match c with Delete _ _ => true | _ => false end.

(** The byte ranges of the chunks sent, in the order they were sent. *)
Definition put_ranges (w : world) : list content_range :=
  omap (fun c => match c with Put _ _ r _ => Some r | _ => None end) w.

(** The reply to a chunk was one of the accepted codes. *)
Definition accepted (resp : response) : bool :=
  Py.int_in (status_code resp) Spo.acceptable_codes.

(** The remote side accepts every chunk, whatever came before. *)
Definition accepts_chunks (E : environment) : Prop :=
  forall (w : world) url n r d, accepted (http_reply E w (Put url n r d)) = true.

(** The call that sends the chunk at position [q] of a file of length
    [total]. *)
Definition put_at (url : string) (total q : Z) : call :=
  let got := Z.min CHUNK_SIZE (Z.max 0 (total - q)) in
  Put url got (mk_range q (q + got - 1) total) (mk_chunk q got).

(** The first [n] calls of a transfer that is never rejected, from
    position [q] on. *)
Fixpoint puts_from (url : string) (total : Z) (n : nat) (q : Z) : list call :=
  match n with
  | O => []
  | S n' =>
      put_at url total q
      :: puts_from url total n' (q + Z.min CHUNK_SIZE (Z.max 0 (total - q)))
  end.

(** ** Reading the retention loop *)

(** The format [cleanup_files] parses creation times with. *)
Definition created_format : string := "%Y-%m-%dT%H:%M:%SZ".

(** The creation time of an entry, when it parses. *)
Definition stamp (E : environment) (x : item) : option datetime :=
  strptime E (Py.get_str x "createdDateTime") created_format.

(** [x] stands between [before] and [after] and is the oldest of them, the
    first one among those of its age: what comes before it is strictly
    younger, what comes after it is not older.  Entries whose time does not
    parse do not take part. *)
Definition oldest_first (E : environment)
    (before : list item) (x : item) (after : list item) : Prop :=
  exists t,
    stamp E x = Some t
    /\ Forall (fun y => forall u, stamp E y = Some u -> Datetime.ltb t u = true) before
    /\ Forall (fun y => forall u, stamp E y = Some u -> Datetime.ltb u t = false) after.

(** Oldest-first eviction down to [MAX_BACKUPS] entries: the entries evicted,
    in order, and those that stay. *)
Inductive evicts (E : environment) : list item -> list item -> list item -> Prop :=
| evicts_within (l : list item) :
    Z.of_nat (length l) <= MAX_BACKUPS ->
    evicts E l [] l
| evicts_oldest (before : list item) (x : item) (after dels rest : list item) :
    MAX_BACKUPS < Z.of_nat (length (before ++ x :: after)) ->
    oldest_first E before x after ->
    evicts E (before ++ after) dels rest ->
    evicts E (before ++ x :: after) (x :: dels) rest.

(** The id under which an entry is deleted. *)
Definition entry_id (x : item) : string := Py.get_str x "id".

(** A listing the loop can work through: every entry has an id of its own
    and a creation time that parses and lies before [limit]. *)
Definition eligible (E : environment) (limit : datetime) (l : list item) : Prop :=
  Forall (fun y => exists t, stamp E y = Some t /\ Datetime.ltb t limit = true) l
  /\ Forall (fun y => is_Some (y !! "id")) l
  /\ NoDup (entry_id <$> l).

(** No entry of the listing has a creation time that parses. *)
Definition unparseable (E : environment) (l : list item) : Prop :=
  Forall (fun y => stamp E y = None) l.

(** The call [_delete_file] makes for an item id, under the token [tok]. *)
Definition delete_call (self : SpoController) (tok item_id : string) : call :=
  Delete (Py.split_head "/root:" (endpoint self) +:+ "/items/" +:+ item_id)
         {[ "Authorization" := "Bearer " +:+ tok ]}.

(** The call [query_graph] makes for a URL, under the token [tok]. *)
Definition query_call (tok url : string) : call :=
  Get url {[ "Authorization" := "Bearer " +:+ tok;
             "Content-Type" := "application/json" ]}.

(** The remote side answers every deletion with 204. *)
Definition deletes_succeed (E : environment) : Prop :=
  forall (w : world) url headers, status_code (http_reply E w (Delete url headers)) = 204.

(** What a run of the loop from the listing [l] and the log [w], ending in
    [res] after the calls [calls], owes to a deletion that was not answered
    204: that call, number [i] from 0, is the last one; the loop ends in the
    ordinary way; and the [i] passes before it took at most one entry each
    off the listing, exactly one each if the listing is eligible. *)
Definition ends_at_failure (E : environment) (limit : datetime)
    (l : list item) (w : world) (res : outcome (list item)) (calls : list call)
  : Prop :=
  forall (i : nat) (c : call),
    calls !! i = Some c ->
    (status_code (http_reply E (w ++ take i calls) c) =? 204) = false ->
    length calls = S i
    /\ exists rest : list item,
         res = Ret rest
         /\ (length l <= length rest + i)%nat
         /\ (length rest <= length l)%nat
         /\ (eligible E limit l -> length l = (length rest + i)%nat).

(** ** A concrete environment, for the examples *)

Module Sample.

Definition reply (status : Z) : response := mk_response status "" None.

Definition json_reply (status : Z) (body : gmap string string) : response :=
  mk_response status "" (Some (mk_jdict body None)).

Definition listing (items : list item) : response :=
  mk_response 200 "" (Some (mk_jdict ∅ (Some items))).

Definition entry (id name created : string) : item :=
  {[ "id" := id; "name" := name; "createdDateTime" := created ]}.

(** The token of the examples, and the dictionary it comes in. *)
Definition tok : string := "eyJ0eXAi".

Definition token : gmap string string :=
  {[ "access_token" := tok; "token_type" := "Bearer" ]}.

Definition folder : string :=
  "https://graph.microsoft.com/v1.0/sites/contoso/drive/root:/archive:/children".

Definition environ : gmap string string :=
  {[ "SPOBKP_AUTHORITY" := "https://login.microsoftonline.com/contoso";
     "SPOBKP_ENDPOINT" := folder;
     "SPOBKP_SCOPE" := "https://graph.microsoft.com/.default";
     "SPOBKP_CLIENTID" := "0f1e2d3c";
     "SPOBKP_SECRET" := "s3cret" ]}.

(** A decimal number of exactly the digits given. *)
Fixpoint digits (acc : Z) (s : string) : option Z :=
  match s with
  | EmptyString => Some acc
  | String c rest =>
      let n := Z.of_nat (Ascii.nat_of_ascii c) in
      if (48 <=? n) && (n <=? 57) then digits (10 * acc + (n - 48)) rest else None
  end.

(** A parser for the zero-padded form [YYYY-MM-DDTHH:MM:SSZ], which is the
    form the remote side writes; the format argument is not looked at. *)
Definition strptime_iso (s fmt : string) : option datetime :=
  if negb (Nat.eqb (String.length s) 20) then None
  else if negb (String.eqb (String.substring 4 1 s) "-" && String.eqb (String.substring 7 1 s) "-"
                && String.eqb (String.substring 10 1 s) "T" && String.eqb (String.substring 13 1 s) ":"
                && String.eqb (String.substring 16 1 s) ":" && String.eqb (String.substring 19 1 s) "Z")
  then None
  else
    y ← digits 0 (String.substring 0 4 s);
    m ← digits 0 (String.substring 5 2 s);
    d ← digits 0 (String.substring 8 2 s);
    h ← digits 0 (String.substring 11 2 s);
    mi ← digits 0 (String.substring 14 2 s);
    sec ← digits 0 (String.substring 17 2 s);
    date ← Datetime.new y m d;
    if (h <=? 23) && (mi <=? 59) && (sec <=? 59)
    then Some (mk_datetime y m d h mi sec)
    else None.

Definition count (p : call -> bool) (w : world) : nat := length (filter p w).

(** A remote side that answers the folder query with [items] (and a query of
    any other URL with the id of the folder), the session request with
    [session], and the n-th PUT and the n-th DELETE (from 0) with the status
    the two scripts give. *)
Definition http (items : list item) (session : response)
    (put_status delete_status : nat -> Z) (w : world) (c : call) : response :=
  match c with
  | Get url _ =>
      if String.eqb url folder then listing items
      else json_reply 200 {[ "id" := "01FOLDER" ]}
  | Post _ _ _ => session
  | Put _ _ _ _ => reply (put_status (count is_put w))
  | Delete _ _ => reply (delete_status (count is_delete w))
  | _ => reply 400
  end.

(** The identity provider: nothing cached, and on request a token, or an
    error for a client without a secret. *)
Definition msal (w : world) (c : call) : option (gmap string string) :=
  match c with
  | AcquireTokenForClient app _ =>
      if Py.not_str (app_client_credential app)
      then Some {[ "error" := "invalid_client" ]}
      else Some token
  | _ => None
  end.

(** A file of [size] zero bytes ([size] at most the largest [off_t]). *)
Definition archive (size : N) : file :=
  mk_file (N.min size (2 ^ 63 - 1)) (fun _ => Byte.x00)
    (proj2 (N.ltb_lt _ _)
       (N.le_lt_trans _ _ _ (N.le_min_r size (2 ^ 63 - 1))
          (eq_refl : (2 ^ 63 - 1 < 2 ^ 63)%N))).

Definition env (vars : gmap string string) (now : datetime)
    (reply_to : world -> call -> response) (size : N) : environment :=
  {| os_environ := vars;
     msal_reply := msal;
     http_reply := reply_to;
     utcnow := now;
     strptime := strptime_iso;
     files := fun _ => Some (archive size) |}.

(** The upload URL of the examples, and the path of the local archive. *)
Definition upload_url : string := "https://upload.contoso.example/session/1".
Definition archive_path : string := "/tmp/archive/repo.zip".

Definition session_ok : response :=
  json_reply 200 {[ "uploadUrl" := upload_url ]}.

Definition today : datetime := mk_datetime 2024 5 17 9 30 0.

(** The controller once [connect_graph] has obtained the token. *)
Definition spo : SpoController :=
  {| authority := "https://login.microsoftonline.com/contoso";
     endpoint := folder;
     scope := ["https://graph.microsoft.com/.default"];
     client_id := "0f1e2d3c";
     secret := "s3cret";
     graph_token := token;
     client := Some (mk_msal_client "0f1e2d3c"
                       "https://login.microsoftonline.com/contoso" "s3cret") |}.

(** Six backups, not in the order of their age. *)
Definition six : list item :=
  [ entry "id-c" "repo_2024-03-01.zip" "2024-03-01T02:00:00Z";
    entry "id-a" "repo_2024-01-01.zip" "2024-01-01T02:00:00Z";
    entry "id-e" "repo_2024-05-01.zip" "2024-05-01T02:00:00Z";
    entry "id-b" "repo_2024-02-01.zip" "2024-02-01T02:00:00Z";
    entry "id-f" "repo_2024-05-16.zip" "2024-05-16T02:00:00Z";
    entry "id-d" "repo_2024-04-01.zip" "2024-04-01T02:00:00Z" ].

(** The site of the examples: the variables and the clock above, the local
    archive of [size] bytes, and a remote side that lists [items]. *)
Definition site (items : list item) (put_status delete_status : nat -> Z)
    (size : N) : environment :=
  env environ today (http items session_ok put_status delete_status) size.

(** The run without [SPOBKP_SECRET] in the environment. *)
Definition site_without_secret : environment :=
  env (delete "SPOBKP_SECRET" environ) today
      (http six session_ok (fun _ => 202) (fun _ => 204)) 25000000.

(** A remote side that answers the session request with [session]. *)
Definition site_with_session (session : response) : environment :=
  env environ today (http six session (fun _ => 202) (fun _ => 204)) 25000000.

(** The session request as [_get_upload_url] sends it for [repo.zip]. *)
Definition session_call : call :=
  Post "https://graph.microsoft.com/v1.0/sites/contoso/drive/items/01FOLDER:/repo.zip:/createUploadSession"
       {[ "Authorization" := "Bearer " +:+ tok; "Content-Type" := "application/json" ]}
       (Spo.url_payload "repo.zip").

(** Five entries stamped years ahead of [today]. *)
Definition ahead : list item :=
  [ entry "id-p" "repo_p.zip" "2031-01-01T02:00:00Z";
    entry "id-q" "repo_q.zip" "2031-02-01T02:00:00Z";
    entry "id-r" "repo_r.zip" "2031-03-01T02:00:00Z";
    entry "id-s" "repo_s.zip" "2031-04-01T02:00:00Z";
    entry "id-t" "repo_t.zip" "2031-05-01T02:00:00Z" ].

(** Five entries whose creation time does not parse: it is written with a
    fraction of a second, which the format has no place for. *)
Definition unreadable : list item :=
  [ entry "id-u" "notes_u.zip" "2024-02-01T02:00:00.25Z";
    entry "id-v" "notes_v.zip" "2024-02-02T02:00:00.25Z";
    entry "id-w" "notes_w.zip" "2024-02-03T02:00:00.25Z";
    entry "id-x" "notes_x.zip" "2024-02-04T02:00:00.25Z";
    entry "id-y" "notes_y.zip" "2024-02-05T02:00:00.25Z" ].

(** One backup among them. *)
Definition mixed : list item :=
  entry "id-a" "repo_2024-01-01.zip" "2024-01-01T02:00:00Z" :: unreadable.

End Sample.

(** ** The rest of [spo_controller.py] and [main.py] *)

Definition is_msal (c : call) : bool :=
  match c with
  | AcquireTokenSilent _ _ | AcquireTokenForClient _ _ => true
  | _ => false
  end.

Definition is_post (c : call) : bool :=
  match c with Post _ _ _ => true | _ => false end.

(** The URL a chunk was sent to, its [Content-Length] and the bytes it
    describes. *)
Definition put_url (c : call) : option string :=
  match c with Put url _ _ _ => Some url | _ => None end.

Definition put_length (c : call) : option Z :=
  match c with Put _ n _ _ => Some n | _ => None end.

Definition put_data (c : call) : option chunk :=
  match c with Put _ _ _ d => Some d | _ => None end.

(** The bytes of the chunks sent, one after the other. *)
Definition bytes_sent (f : file) (w : world) : list Byte.byte :=
  concat (Spo.chunk_bytes f <$> omap put_data w).

(** The bytes of a file, from its first to its last. *)
Definition file_bytes (f : file) : list Byte.byte :=
  byte_at f <$> seqZ 0 (Z.of_N (st_size f)).

(** The end of a run without the value it returned, as [cleanup_files] ends
    the run of its loop. *)
Definition forget {A} (run : outcome A * world) : outcome unit * world :=
  match run with
  | (Ret _, w) => (Ret tt, w)
  | (Raise e, w) => (Raise e, w)
  | (Spin, w) => (Spin, w)
  end.

(** The calls of a run of the pipeline, stage by stage: each stage has
    calls of its kind only, the stages that make one request make at most
    one, and a stage has calls only if the one before it had. *)
Definition in_stages (auth lookup session puts listing dels : list call) : Prop :=
  forallb is_msal auth = true /\ (length auth <= 2)%nat
  /\ forallb is_get lookup = true /\ (length lookup <= 1)%nat
  /\ forallb is_post session = true /\ (length session <= 1)%nat
  /\ forallb is_put puts = true
  /\ forallb is_get listing = true /\ (length listing <= 1)%nat
  /\ forallb is_delete dels = true
  /\ (lookup <> [] -> auth <> [])
  /\ (session <> [] -> lookup <> [])
  /\ (puts <> [] -> session <> [])
  /\ (listing <> [] -> puts <> [])
  /\ (dels <> [] -> listing <> []).

(** What [check_dir] returns: the reply of the query when that has a member
    [error], or else the dictionary with the one member [exists]. *)
Inductive dir_state : Type :=
| QueryError (raw_resp : jdict)
| DirExists (found : bool).

Module Dirs.

Section Directories.

Variable E : environment.

(** [str.lower], which follows the Unicode tables. *)
Variable lower : string -> string.

(** The [for] loop of [check_dir] over the entries of the listing. *)
Fixpoint dir_listed (name : string) (entries : list item) : bool :=
  match entries with
  | [] => false
  | single_dir :: rest =>
      if String.eqb (lower (Py.get_str single_dir "name")) (lower name) then true
      else dir_listed name rest
  end.

(** [check_dir]; the query is made without an argument, so the endpoint
    passed in (or defaulted) is not what is queried. *)
Definition check_dir (self : SpoController) (name endpoint_arg : string)
  : IO dir_state :=
  let endpoint_arg :=
    if Py.not_str endpoint_arg then endpoint self else endpoint_arg in
  raw_resp ← Spo.query_graph E self "";
  if bool_decide (is_Some (members raw_resp !! "error")) then mret (QueryError raw_resp)
  else mret (DirExists (dir_listed name (default [] (value raw_resp)))).

(** The request body of [create_dir]; the empty [folder] object is written
    as it is serialised. *)
Definition dir_payload (name : string) : gmap string string :=
  {[ "name" := name;
     "folder" := "{}";
     "@microsoft.graph.conflictBehavior" := "rename" ]}.

Definition accept_header : string :=
  "application/json;odata.metadata=minimal;odata.streaming=true;"
  +:+ "IEEE754Compatible=false;charset=utf-8".

Definition create_dir (self : SpoController) (name endpoint_arg : string) : IO bool :=
  let endpoint_arg :=
    if Py.not_str endpoint_arg then endpoint self else endpoint_arg in
  auth ← Spo.bearer self;
  resp ← Spo.http_call E (Post endpoint_arg
            {[ "Accept" := accept_header;
               "Authorization" := auth;
               "Content-Type" := "application/json" ]}
            (dir_payload name));
  if negb (Py.int_in (status_code resp) [200; 201; 202]) then mret false
  else mret true.

End Directories.

End Dirs.

Definition ARCHIVE_BASE : string := "/tmp/archive/".

Module Entry.

(** [s.endswith(suffix)]. *)
Fixpoint endswith (suffix s : string) : bool :=
  String.eqb s suffix
  || match s with
     | EmptyString => false
     | String _ rest => endswith suffix rest
     end.

(** The local file system, as far as [main] names it: the paths that exist,
    each under the spelling it was made with.  What [os.makedirs] and
    [shutil.make_archive] make on the way (the directories above, the
    directory of an archive whose prefix has a slash in it) is not recorded;
    the properties of [main] speak of the archive, under its own path. *)
Abbreviation paths := (gset string).

(** [remove_file]: [os.remove], with [FileNotFoundError] caught. *)
Definition remove_file (file_path : string) (fs : paths) : paths :=
  if bool_decide (file_path ∈ fs) then fs ∖ {[ file_path ]} else fs.

(** [validate_dir]: the directory is made unless the path exists. *)
Definition validate_dir (dir_path : string) (fs : paths) : paths :=
  if negb (bool_decide (dir_path ∈ fs)) then {[ dir_path ]} ∪ fs else fs.

(** [shutil.make_archive(base_name, "zip", root_dir)], taken to succeed: the
    file [base_name.zip] exists afterwards. *)
Definition make_archive (base_name root_dir : string) (fs : paths) : paths :=
  {[ base_name +:+ ".zip" ]} ∪ fs.

Section Cli.

Variable E : environment.

(** The directory to archive: [GITHUB_WORKSPACE], or [./], with a slash at
    its end. *)
Definition workspace : string :=
  let file_path := default "./" (os_environ E !! "GITHUB_WORKSPACE") in
  if negb (endswith "/" file_path) then file_path +:+ "/" else file_path.

(** The name of the archive, without the extension; [now_text] is
    [datetime.now().strftime('%Y-%m-%d_%H-%M-%S')]. *)
Definition archive_stem (now_text : string) : string :=
  default "repo" (os_environ E !! "ARCHIVE_PREFIX") +:+ "_" +:+ now_text.

(** [main], on the log and on the paths that exist.  An exception of
    [manage_spo] is not caught: what follows the call is not run then. *)
Definition main (fuel : nat) (now_text : string) (fs : paths) (w : world)
  : outcome unit * world * paths :=
  let file_path := workspace in
  let fs := validate_dir ARCHIVE_BASE fs in
  let archive_name := archive_stem now_text in
  let archive_path := ARCHIVE_BASE +:+ archive_name in
  let fs := make_archive archive_path file_path fs in
  let archive_name := archive_name +:+ ".zip" in
  let archive_path := archive_path +:+ ".zip" in
  match Main.manage_spo E fuel archive_path archive_name w with
  | (Ret _, w') => (Ret tt, w', remove_file archive_path fs)
  | (Raise e, w') => (Raise e, w', fs)
  | (Spin, w') => (Spin, w', fs)
  end.

End Cli.

End Entry.

(** ** Further scenarios, for the examples *)

Module Scenario.

(** [str.lower] on the letters A to Z. *)
Fixpoint lower (s : string) : string :=
  match s with
  | EmptyString => EmptyString
  | String c rest =>
      let n := Ascii.nat_of_ascii c in
      String (if (Nat.leb 65 n && Nat.leb n 90)%bool
              then Ascii.ascii_of_nat (n + 32) else c)
             (lower rest)
  end.

(** An identity provider with the token in its cache. *)
Definition msal_cached (w : world) (c : call) : option (gmap string string) :=
  match c with
  | AcquireTokenSilent _ _ => Some Sample.token
  | _ => None
  end.

Definition site_cached : environment :=
  {| os_environ := Sample.environ;
     msal_reply := msal_cached;
     http_reply := Sample.http Sample.six Sample.session_ok (fun _ => 202) (fun _ => 204);
     utcnow := Sample.today;
     strptime := Sample.strptime_iso;
     files := fun _ => Some (Sample.archive 25000000) |}.

(** A remote side on which the folder of the endpoint is not found. *)
Definition http_not_found (w : world) (c : call) : response :=
  match c with
  | Get _ _ => mk_response 404 "itemNotFound" None
  | _ => Sample.reply 400
  end.

Definition site_not_found : environment :=
  Sample.env Sample.environ Sample.today http_not_found 25000000.

(** A site on which the archive is not where it is looked for. *)
Definition site_no_archive : environment :=
  {| os_environ := Sample.environ;
     msal_reply := Sample.msal;
     http_reply := Sample.http Sample.six Sample.session_ok (fun _ => 202) (fun _ => 204);
     utcnow := Sample.today;
     strptime := Sample.strptime_iso;
     files := fun _ => None |}.

(** A folder with three directories in it. *)
Definition three_dirs : list item :=
  [ Sample.entry "id-1" "Backups" "2024-01-01T02:00:00Z";
    Sample.entry "id-2" "Reports" "2024-01-02T02:00:00Z";
    Sample.entry "id-3" "Archive" "2024-01-03T02:00:00Z" ].

Definition site_dirs : environment :=
  Sample.site three_dirs (fun _ => 202) (fun _ => 204) 25000000.

(** The site of the examples on a 29th of February, and with a gateway that
    answers the session request with a page that is no JSON. *)
Definition leap_day : datetime := mk_datetime 2028 2 29 3 15 0.

Definition site_leap_day : environment :=
  Sample.env Sample.environ leap_day
    (Sample.http Sample.six Sample.session_ok (fun _ => 202) (fun _ => 204)) 25000000.

Definition bad_gateway : response :=
  mk_response 502 "<html><body>Bad Gateway</body></html>" None.

End Scenario.

(** * Properties *)

(** Run the first bind of the goal. *)
Ltac step_bind := unfold mbind at 1, IO_bind at 1, io_bind at 1.

(** ** The chunked transfer *)

Section Transfer.

Variable E : environment.
Variables (url : string) (f : file).

Local Abbreviation total := (Z.of_N (st_size f)).

Lemma chunk_loop_step (num : Z) (rest : list Z) (pos start : Z) (w : world) :
  let got := Z.min CHUNK_SIZE (Z.max 0 (total - pos)) in
  let c := Put url got (mk_range start (start + got - 1) total) (mk_chunk pos got) in
  Spo.chunk_loop E url f total (num :: rest) pos start w =
    if accepted (http_reply E w c)
    then Spo.chunk_loop E url f total rest (pos + got) (start + got) (w ++ [c])
    else (Ret false, w ++ [c]).
Proof.
  cbn -[Z.min Z.max Z.add Z.sub accepted Py.int_in].
  unfold mbind, IO_bind, io_bind, Spo.http_call, accepted, total.
  by destruct (Py.int_in _ _).
Qed.

(** When nothing is rejected the log grows by the calls of [puts_from] and
    the loop reports success. *)
Lemma chunk_loop_accepted (nums : list Z) (q : Z) (w : world) :
  accepts_chunks E ->
  Spo.chunk_loop E url f total nums q q w =
    (Ret true, w ++ puts_from url total (length nums) q).
Proof.
  intros Hacc. revert q w.
  induction nums as [|num rest IH]; intros q w.
  - by rewrite app_nil_r.
  - rewrite chunk_loop_step, Hacc, IH, <- app_assoc. reflexivity.
Qed.

(** Whatever the replies, the log only grows, a rejected chunk is the last
    one sent, and it makes the loop report failure. *)
Lemma chunk_loop_rejected (nums : list Z) (pos start : Z) (w : world) :
  exists res calls,
    Spo.chunk_loop E url f total nums pos start w = (res, w ++ calls)
    /\ forall (i : nat) c,
         calls !! i = Some c ->
         accepted (http_reply E (w ++ take i calls) c) = false ->
         length calls = S i /\ res = Ret false.
Proof.
  revert pos start w.
  induction nums as [|num rest IH]; intros pos start w.
  - exists (Ret true), []. split; [by rewrite app_nil_r|].
    intros i c Hc. by rewrite lookup_nil in Hc.
  - rewrite chunk_loop_step.
    set (got := Z.min _ _). set (c0 := Put _ _ _ _).
    destruct (accepted (http_reply E w c0)) eqn:Hrep.
    + destruct (IH (pos + got) (start + got) (w ++ [c0])) as (res & calls & Hrun & Hrej).
      exists res, (c0 :: calls). split.
      { by rewrite Hrun, <- app_assoc. }
      intros [|i] c Hc Hbad; simpl in Hc, Hbad.
      * inversion Hc; subst c. rewrite app_nil_r in Hbad. congruence.
      * rewrite (cons_middle c0 w), app_assoc in Hbad.
        destruct (Hrej i c Hc Hbad) as [Hlen ->]. simpl. by rewrite Hlen.
    + exists (Ret false), [c0]. split; [done|].
      intros [|i] c Hc _; [done|]. by rewrite lookup_cons, lookup_nil in Hc.
Qed.

End Transfer.

(** *** The calls of an accepted transfer, in closed form *)

Lemma puts_from_length url total n q : length (puts_from url total n q) = n.
Proof. revert q. induction n as [|n IH]; intros q; simpl; [done|by rewrite IH]. Qed.

Lemma puts_from_all_put url total n q : forallb is_put (puts_from url total n q) = true.
Proof. revert q. induction n as [|n IH]; intros q; simpl; [done|apply IH]. Qed.

(** The chunk number [i] starts at [i * CHUNK_SIZE], or at the end of the
    file when that lies beyond it. *)
Lemma puts_from_lookup url total n q (i : nat) :
  0 <= q <= total -> (i < n)%nat ->
  puts_from url total n q !! i
  = Some (put_at url total (Z.min (q + Z.of_nat i * CHUNK_SIZE) total)).
Proof.
  revert q i. induction n as [|n IH]; intros q i Hq Hi; [lia|].
  destruct i as [|i]; simpl.
  - do 2 f_equal. lia.
  - rewrite IH by (unfold CHUNK_SIZE; lia).
    do 2 f_equal. unfold CHUNK_SIZE. lia.
Qed.

Lemma put_ranges_puts_from url total n q :
  put_ranges (puts_from url total n q)
  = (fun c => match c with Put _ _ r _ => r | _ => mk_range 0 0 0 end)
      <$> puts_from url total n q.
Proof. revert q. induction n as [|n IH]; intros q; simpl; [done|]. by rewrite <- IH. Qed.

Lemma put_ranges_lookup url total n q (i : nat) :
  0 <= q <= total -> (i < n)%nat ->
  put_ranges (puts_from url total n q) !! i
  = Some (let p := Z.min (q + Z.of_nat i * CHUNK_SIZE) total in
          mk_range p (p + Z.min CHUNK_SIZE (Z.max 0 (total - p)) - 1) total).
Proof.
  intros Hq Hi. rewrite put_ranges_puts_from, list_lookup_fmap.
  by rewrite puts_from_lookup.
Qed.

Lemma put_ranges_length url total n q :
  length (put_ranges (puts_from url total n q)) = n.
Proof. by rewrite put_ranges_puts_from, length_fmap, puts_from_length. Qed.

(** *** The quotient [int(file_size / CHUNK_SIZE)] *)

(** Rounding to the nearest integer moves by less than one, and not at all
    from an integer. *)
Lemma round_half_even_bounds (n d : Z) :
  0 < d ->
  let m := Py.round_half_even n d in
  (m = n / d \/ m = n / d + 1 /\ d <= 2 * (n mod d))
  /\ (n mod d = 0 -> m = n / d).
Proof.
  intros Hd m. unfold m, Py.round_half_even. cbv zeta.
  destruct (Z.compare_spec (2 * (n mod d)) d) as [Heq|Hlt|Hgt].
  - split; [destruct (Z.even _); [by left|right; split; [done|lia]]|]. lia.
  - split; [by left|done].
  - split; [right; split; [done|lia]|lia].
Qed.

(** A quotient rounded on a grid of [s] steps to the unit, then cut to an
    integer: the integer quotient, or one more; it is the integer quotient
    when the division leaves no remainder, and when the grid is finer than
    twice the steps of the divisor. *)
Lemma rounded_quotient (a b s : Z) :
  0 <= a -> 0 < b -> 0 < s ->
  let t := Py.round_half_even (a * s) b / s in
  a / b <= t <= a / b + 1
  /\ (a mod b = 0 -> t = a / b)
  /\ (b < 2 * s -> t = a / b).
Proof.
  intros Ha Hb Hs t.
  pose proof (Z.div_mod a b ltac:(lia)) as Hab.
  pose proof (Z.mod_pos_bound a b Hb) as Hr.
  pose proof (Z.div_mod (a * s) b ltac:(lia)) as Has.
  pose proof (Z.mod_pos_bound (a * s) b Hb) as HR.
  destruct (round_half_even_bounds (a * s) b Hb) as [Hm Hexact].
  set (q := a / b) in *. set (r := a mod b) in *.
  set (Q := a * s / b) in *. set (R := (a * s) mod b) in *.
  set (m := Py.round_half_even (a * s) b) in *.
  assert (Hqs : a * s = b * (q * s) + r * s) by nia.
  assert (Hrs : 0 <= r * s <= (b - 1) * s) by nia.
  assert (HQ : q * s <= Q) by nia.
  assert (HQ' : Q < (q + 1) * s) by nia.
  assert (Hlow : q * s <= m) by (destruct Hm as [->|[-> _]]; lia).
  assert (Hup : m <= (q + 1) * s) by (destruct Hm as [->|[-> _]]; lia).
  split; [|split].
  - unfold t. split.
    + apply Z.div_le_lower_bound; lia.
    + apply Z.div_le_upper_bound; [lia|]. nia.
  - intros Hr0. unfold t. symmetry. apply (Z.div_unique m s q (m - q * s)); [|lia].
    left. split; [lia|].
    assert (Hrs0 : r * s = 0) by nia.
    assert (HR0 : R = 0) by nia.
    rewrite (Hexact HR0). nia.
  - intros Hfine. unfold t. symmetry. apply (Z.div_unique m s q (m - q * s)); [|lia].
    left. split; [lia|].
    destruct Hm as [->|[-> HR2]]; [lia|]. nia.
Qed.

(** The exponent [int_truediv] works at: for a dividend below [2^n] and the
    divisor [CHUNK_SIZE] it is at most [n - 76]. *)
Lemma int_truediv_chunks (a n : Z) :
  0 < a < 2 ^ n -> 0 <= n <= 75 ->
  exists s,
    2 ^ (76 - n) <= s
    /\ Py.int_truediv a CHUNK_SIZE = Py.round_half_even (a * s) CHUNK_SIZE / s.
Proof.
  intros Ha Hn. unfold Py.int_truediv.
  rewrite (proj2 (Z.eqb_neq a 0)) by lia. cbv zeta.
  assert (Hlog : Z.log2 a < n) by (apply Z.log2_lt_pow2; lia).
  assert (Hlog0 : 0 <= Z.log2 a) by apply Z.log2_nonneg.
  change (Z.log2 CHUNK_SIZE) with 23.
  set (k := Z.log2 a - 23).
  set (e := (if (if 0 <=? k then a <? CHUNK_SIZE * 2 ^ k else a * 2 ^ (- k) <? CHUNK_SIZE)
             then k - 1 else k) - 52).
  assert (He : e <= n - 76) by (unfold e, k; destruct (if 0 <=? _ then _ else _); lia).
  rewrite (proj2 (Z.leb_gt 0 e)) by lia.
  exists (2 ^ (- e)). split; [|done].
  apply Z.pow_le_mono_r; lia.
Qed.

(** [int(file_size / CHUNK_SIZE)] for the length of a file: the integer
    quotient or one more, and the integer quotient for a length that is a
    multiple of [CHUNK_SIZE], or below [2^53]. *)
Lemma int_truediv_file_size (f : file) :
  let L := Z.of_N (st_size f) in
  let q := Py.int_truediv L CHUNK_SIZE in
  L / CHUNK_SIZE <= q <= L / CHUNK_SIZE + 1
  /\ (L mod CHUNK_SIZE = 0 -> q = L / CHUNK_SIZE)
  /\ (L < 2 ^ 53 -> q = L / CHUNK_SIZE).
Proof.
  intros L q.
  assert (HL : 0 <= L < 2 ^ 63).
  { pose proof (st_size_off_t f) as Hb. apply N.ltb_lt in Hb. unfold L. lia. }
  destruct (Z.eq_dec L 0) as [H0|H0].
  { unfold q. rewrite H0. vm_compute. repeat split; try done; discriminate. }
  destruct (int_truediv_chunks L 63 ltac:(lia) ltac:(lia)) as (s & Hs & Hq).
  change (2 ^ (76 - 63)) with 8192 in Hs.
  destruct (rounded_quotient L CHUNK_SIZE s ltac:(lia) ltac:(done) ltac:(lia))
    as (Hb & Hz & _).
  fold q in Hq. rewrite <- Hq in Hb, Hz.
  split; [exact Hb|]. split; [exact Hz|].
  intros H53.
  destruct (int_truediv_chunks L 53 ltac:(lia) ltac:(lia)) as (s' & Hs' & Hq').
  change (2 ^ (76 - 53)) with 8388608 in Hs'.
  destruct (rounded_quotient L CHUNK_SIZE s' ltac:(lia) ltac:(done) ltac:(lia))
    as (_ & _ & Hfine).
  fold q in Hq'. rewrite Hq'. apply Hfine. unfold CHUNK_SIZE. lia.
Qed.

(** The number of iterations, [int(file_size / CHUNK_SIZE) + 1]: enough to
    reach the end of the file, and no more than one beyond that. *)
Lemma chunks_count (f : file) :
  let L := Z.of_N (st_size f) in
  let n := Py.int_truediv L CHUNK_SIZE + 1 in
  0 <= L
  /\ L / CHUNK_SIZE + 1 <= n <= L / CHUNK_SIZE + 2
  /\ (L mod CHUNK_SIZE = 0 -> n = L / CHUNK_SIZE + 1)
  /\ (L < 2 ^ 53 -> n = L / CHUNK_SIZE + 1)
  /\ 0 <= L / CHUNK_SIZE.
Proof.
  intros L n. destruct (int_truediv_file_size f) as (Hb & Hz & Hs).
  fold L in Hb, Hz, Hs. unfold n.
  assert (0 <= L) by (unfold L; lia).
  assert (0 <= L / CHUNK_SIZE) by (apply Z.div_pos; unfold CHUNK_SIZE; lia).
  split; [lia|]. split; [lia|].
  split; [intros Hm; by rewrite (Hz Hm)|].
  split; [intros Hm; by rewrite (Hs Hm)|lia].
Qed.

(** The whole of [_manage_file_chunks] when nothing is rejected. *)
Lemma manage_file_chunks_accepted E url path f w :
  files E path = Some f -> accepts_chunks E ->
  Spo._manage_file_chunks E url path w
  = (Ret true,
     w ++ puts_from url (Z.of_N (st_size f))
            (Z.to_nat (Py.int_truediv (Z.of_N (st_size f)) CHUNK_SIZE + 1)) 0).
Proof.
  intros Hf Hacc. unfold Spo._manage_file_chunks, mbind, IO_bind, io_bind.
  rewrite Hf. cbn [or_raise mret IO_ret io_ret].
  rewrite chunk_loop_accepted by done.
  do 3 f_equal. unfold Py.range. by rewrite length_seqZ.
Qed.

(** *** The claims about the transfer *)

(** C1, as amended.  If no chunk is rejected, a file of length [L], [L]
    below [2^53], is sent in exactly [L / CHUNK_SIZE + 1] PUT calls and the
    transfer reports success.  When [L] is a multiple of [CHUNK_SIZE] the
    last call carries no byte: its length is 0 and it leaves the offset at
    [L].  For [L = 0] this empty call is the only one; for [L = CHUNK_SIZE]
    it follows the one full chunk. *)
Theorem transfer_put_count E (url path : string) (f : file) (w : world) :
  files E path = Some f ->
  accepts_chunks E ->
  let L := Z.of_N (st_size f) in
  L < 2 ^ 53 ->
  exists puts,
    Spo._manage_file_chunks E url path w = (Ret true, w ++ puts)
    /\ forallb is_put puts = true
    /\ Z.of_nat (length puts) = L / CHUNK_SIZE + 1
    /\ (L mod CHUNK_SIZE = 0 ->
        last puts = Some (Put url 0 (mk_range L (L - 1) L) (mk_chunk L 0)))
    /\ (L = 0 -> puts = [Put url 0 (mk_range 0 (-1) 0) (mk_chunk 0 0)])
    /\ (L = CHUNK_SIZE ->
        puts = [Put url CHUNK_SIZE (mk_range 0 (CHUNK_SIZE - 1) CHUNK_SIZE)
                  (mk_chunk 0 CHUNK_SIZE);
                Put url 0 (mk_range CHUNK_SIZE (CHUNK_SIZE - 1) CHUNK_SIZE)
                  (mk_chunk CHUNK_SIZE 0)]).
Proof.
  intros Hf Hacc L Hsmall.
  destruct (chunks_count f) as (HL & _ & _ & Hn & Hq). fold L in HL, Hn, Hq.
  specialize (Hn Hsmall).
  eexists. split; [by apply manage_file_chunks_accepted|]. fold L. rewrite Hn.
  split; [apply puts_from_all_put|].
  split; [rewrite puts_from_length; lia|].
  split; [|split].
  - intros Hmod. rewrite last_lookup, puts_from_length.
    rewrite puts_from_lookup by lia.
    assert (Z.min (0 + Z.of_nat (Nat.pred (Z.to_nat (L / CHUNK_SIZE + 1))) * CHUNK_SIZE) L = L)
      as ->.
    { unfold CHUNK_SIZE in *. pose proof (Z.div_mod L 10485760). lia. }
    unfold put_at, CHUNK_SIZE. do 2 f_equal; [lia|f_equal; lia|f_equal; lia].
  - intros ->. reflexivity.
  - intros ->. reflexivity.
Qed.

(** C1, as stated, fails from 11 petabytes on: [int(L / CHUNK_SIZE)] is
    computed in floating point, and for [L = 1073741825 * CHUNK_SIZE - 1] the
    quotient, less than its 53 bits away from 1073741825, is rounded to it.
    Nothing is rejected, and the transfer makes one call more than
    [L / CHUNK_SIZE + 1]. *)
Lemma transfer_put_count_float_counterexample :
  files (Sample.site Sample.six (fun _ => 202) (fun _ => 204) 11258999078911999)
    Sample.archive_path = Some (Sample.archive 11258999078911999)
  /\ Z.of_N (st_size (Sample.archive 11258999078911999)) = 11258999078911999
  /\ accepts_chunks (Sample.site Sample.six (fun _ => 202) (fun _ => 204) 11258999078911999)
  /\ 11258999078911999 / CHUNK_SIZE + 1 = 1073741825
  /\ exists puts,
       Spo._manage_file_chunks
         (Sample.site Sample.six (fun _ => 202) (fun _ => 204) 11258999078911999)
         Sample.upload_url Sample.archive_path [] = (Ret true, [] ++ puts)
       /\ forallb is_put puts = true
       /\ Z.of_nat (length puts) = 1073741826.
Proof.
  split; [reflexivity|]. split; [reflexivity|].
  split; [intros w url n r d; reflexivity|]. split; [reflexivity|].
  eexists. split; [apply manage_file_chunks_accepted|].
  - reflexivity.
  - intros w url n r d. reflexivity.
  - split; [apply puts_from_all_put|].
    rewrite puts_from_length, Z2Nat.id by (by vm_compute).
    vm_compute. reflexivity.
Qed.

(** C2.  If no chunk is rejected, the ranges announced for a file of length
    [L] start at 0, each next one starts right after the end of the one
    before and at a strictly larger offset, and the last one ends at
    [L - 1].  For [L = 25000000] they are [0, 10485759],
    [10485760, 20971519] and [20971520, 24999999]. *)
Theorem transfer_ranges_contiguous E (url path : string) (f : file) (w : world) :
  files E path = Some f ->
  accepts_chunks E ->
  let L := Z.of_N (st_size f) in
  exists puts,
    Spo._manage_file_chunks E url path w = (Ret true, w ++ puts)
    /\ (exists r, head (put_ranges puts) = Some r /\ range_start r = 0)
    /\ (forall (i : nat) r r',
          put_ranges puts !! i = Some r ->
          put_ranges puts !! S i = Some r' ->
          range_end r + 1 = range_start r'
          /\ range_start r < range_start r'
          /\ range_end r <= range_end r')
    /\ (exists r, last (put_ranges puts) = Some r /\ range_end r + 1 = L)
    /\ (L = 25000000 ->
        put_ranges puts = [mk_range 0 10485759 25000000;
                           mk_range 10485760 20971519 25000000;
                           mk_range 20971520 24999999 25000000]).
Proof.
  intros Hf Hacc L.
  destruct (chunks_count f) as (HL0 & Hn & Hz & _ & Hq). fold L in HL0, Hn, Hz, Hq.
  eexists. split; [by apply manage_file_chunks_accepted|]. fold L.
  set (n := Z.to_nat (Py.int_truediv L CHUNK_SIZE + 1)).
  assert (Hn' : L / CHUNK_SIZE + 1 <= Z.of_nat n <= L / CHUNK_SIZE + 2)
    by (unfold n; lia).
  assert (Hz' : L mod CHUNK_SIZE = 0 -> Z.of_nat n = L / CHUNK_SIZE + 1)
    by (intros Hm; unfold n; rewrite (Hz Hm); lia).
  assert (H25 : L = 25000000 ->
                put_ranges (puts_from url L n 0)
                = [mk_range 0 10485759 25000000;
                   mk_range 10485760 20971519 25000000;
                   mk_range 20971520 24999999 25000000])
    by (intros HL25; subst n; rewrite HL25; reflexivity).
  clearbody n. clear Hn Hz.
  assert (HL : 0 <= 0 <= L) by lia.
  assert (Hdiv := Z.div_mod L CHUNK_SIZE).
  assert (Hmod := Z.mod_pos_bound L CHUNK_SIZE).
  split; [|split; [|split]].
  - eexists. rewrite head_lookup, put_ranges_lookup by lia. split; [done|].
    simpl. lia.
  - intros i r r' Hr Hr'.
    assert (S i < n)%nat as Hi.
    { apply lookup_lt_Some in Hr'. by rewrite put_ranges_length in Hr'. }
    rewrite put_ranges_lookup in Hr, Hr' by lia.
    inversion Hr; inversion Hr'; subst r r'; simpl.
    unfold CHUNK_SIZE in *.
    destruct (Z.eq_dec (L mod 10485760) 0) as [Hm|Hm]; [specialize (Hz' Hm)|]; lia.
  - eexists. rewrite last_lookup, put_ranges_length, put_ranges_lookup by lia.
    split; [done|]. simpl. unfold CHUNK_SIZE in *. lia.
  - exact H25.
Qed.

(** C4.  Whatever the file and whatever the replies: a chunk answered with a
    status outside 200, 201, 202 is the last call of the transfer, and the
    transfer reports failure. *)
Theorem transfer_stops_at_rejection E (url path : string) (w : world)
    (res : outcome bool) (calls : list call) (i : nat) (c : call) :
  Spo._manage_file_chunks E url path w = (res, w ++ calls) ->
  calls !! i = Some c ->
  accepted (http_reply E (w ++ take i calls) c) = false ->
  length calls = S i /\ res = Ret false.
Proof.
  unfold Spo._manage_file_chunks, mbind, IO_bind, io_bind.
  destruct (files E path) as [f|]; cbn [or_raise mret IO_ret io_ret raise].
  - destruct (chunk_loop_rejected E url f
                (Py.range (Py.int_truediv (Z.of_N (st_size f)) CHUNK_SIZE + 1)) 0 0 w)
      as (res' & calls' & -> & Hrej).
    intros [= <- Heq%app_inv_head]; subst calls'. apply Hrej.
  - intros [= _ Heq] Hc. rewrite <- (app_nil_r w) in Heq at 1.
    apply app_inv_head in Heq. subst calls. by rewrite lookup_nil in Hc.
Qed.

(** The headers of the last chunk of the 25,000,000 bytes, and of the empty
    chunk that follows a file of exactly [CHUNK_SIZE] bytes. *)
Example put_headers_last_chunk :
  Spo.put_headers 4028480 (mk_range 20971520 24999999 25000000)
  = {[ "Content-Length" := "4028480";
       "Content-Range" := "bytes 20971520-24999999/25000000" ]}.
Proof. vm_compute. reflexivity. Qed.

Example put_headers_empty_chunk :
  Spo.put_headers 0 (mk_range 10485760 10485759 10485760)
  = {[ "Content-Length" := "0";
       "Content-Range" := "bytes 10485760-10485759/10485760" ]}.
Proof. vm_compute. reflexivity. Qed.

(** A file of two full chunks: three calls, the last one empty. *)
Lemma transfer_put_count_witness :
  files (Sample.site Sample.six (fun _ => 202) (fun _ => 204) 20971520)
    Sample.archive_path = Some (Sample.archive 20971520)
  /\ accepts_chunks (Sample.site Sample.six (fun _ => 202) (fun _ => 204) 20971520)
  /\ Z.of_N (st_size (Sample.archive 20971520)) < 2 ^ 53
  /\ exists puts,
       Spo._manage_file_chunks
         (Sample.site Sample.six (fun _ => 202) (fun _ => 204) 20971520)
         Sample.upload_url Sample.archive_path [] = (Ret true, puts)
       /\ Z.of_nat (length puts) = 3
       /\ last puts = Some (Put Sample.upload_url 0
                              (mk_range 20971520 20971519 20971520)
                              (mk_chunk 20971520 0)).
Proof.
  set (E := Sample.site Sample.six (fun _ => 202) (fun _ => 204) 20971520).
  assert (Hf : files E Sample.archive_path = Some (Sample.archive 20971520))
    by reflexivity.
  assert (Hacc : accepts_chunks E) by (intros w url n r d; reflexivity).
  assert (Hsmall : Z.of_N (st_size (Sample.archive 20971520)) < 2 ^ 53)
    by reflexivity.
  split; [exact Hf|split; [exact Hacc|split; [exact Hsmall|]]].
  destruct (transfer_put_count E Sample.upload_url Sample.archive_path
              (Sample.archive 20971520) [] Hf Hacc Hsmall)
    as (puts & Hrun & _ & Hlen & Hlast & _).
  exists puts. split; [exact Hrun|]. split; [exact Hlen|].
  apply Hlast. reflexivity.
Defined.

(** The file of 25,000,000 bytes. *)
Lemma transfer_ranges_contiguous_witness :
  files (Sample.site Sample.six (fun _ => 202) (fun _ => 204) 25000000)
    Sample.archive_path = Some (Sample.archive 25000000)
  /\ accepts_chunks (Sample.site Sample.six (fun _ => 202) (fun _ => 204) 25000000)
  /\ exists puts,
       Spo._manage_file_chunks
         (Sample.site Sample.six (fun _ => 202) (fun _ => 204) 25000000)
         Sample.upload_url Sample.archive_path [] = (Ret true, puts)
       /\ put_ranges puts = [mk_range 0 10485759 25000000;
                             mk_range 10485760 20971519 25000000;
                             mk_range 20971520 24999999 25000000].
Proof.
  set (E := Sample.site Sample.six (fun _ => 202) (fun _ => 204) 25000000).
  assert (Hf : files E Sample.archive_path = Some (Sample.archive 25000000))
    by reflexivity.
  assert (Hacc : accepts_chunks E) by (intros w url n r d; reflexivity).
  split; [exact Hf|split; [exact Hacc|]].
  destruct (transfer_ranges_contiguous E Sample.upload_url Sample.archive_path
              (Sample.archive 25000000) [] Hf Hacc)
    as (puts & Hrun & _ & _ & _ & Hranges).
  exists puts. split; [exact Hrun|]. apply Hranges. reflexivity.
Defined.

(** The second chunk of three is answered 500: two calls, and failure. *)
Lemma transfer_stops_at_rejection_witness :
  Spo._manage_file_chunks
    (Sample.site Sample.six (fun n => if Nat.eqb n 1 then 500 else 202)
       (fun _ => 204) 25000000)
    Sample.upload_url Sample.archive_path []
  = (Ret false,
     [Put Sample.upload_url 10485760 (mk_range 0 10485759 25000000)
        (mk_chunk 0 10485760);
      Put Sample.upload_url 10485760 (mk_range 10485760 20971519 25000000)
        (mk_chunk 10485760 10485760)])
  /\ accepted
       (http_reply
          (Sample.site Sample.six (fun n => if Nat.eqb n 1 then 500 else 202)
             (fun _ => 204) 25000000)
          [Put Sample.upload_url 10485760 (mk_range 0 10485759 25000000)
             (mk_chunk 0 10485760)]
          (Put Sample.upload_url 10485760 (mk_range 10485760 20971519 25000000)
             (mk_chunk 10485760 10485760))) = false
  /\ (length [Put Sample.upload_url 10485760 (mk_range 0 10485759 25000000)
                (mk_chunk 0 10485760);
              Put Sample.upload_url 10485760 (mk_range 10485760 20971519 25000000)
                (mk_chunk 10485760 10485760)] = 2%nat
      /\ Ret false = Ret false :> outcome bool).
Proof.
  set (E := Sample.site Sample.six (fun n => if Nat.eqb n 1 then 500 else 202)
              (fun _ => 204) 25000000).
  set (first := Put Sample.upload_url 10485760 (mk_range 0 10485759 25000000)
                  (mk_chunk 0 10485760)).
  set (second := Put Sample.upload_url 10485760 (mk_range 10485760 20971519 25000000)
                   (mk_chunk 10485760 10485760)).
  assert (Hrun : Spo._manage_file_chunks E Sample.upload_url Sample.archive_path []
                 = (Ret false, [] ++ [first; second])) by (vm_compute; reflexivity).
  assert (Hbad : accepted (http_reply E ([] ++ take 1 [first; second]) second) = false)
    by reflexivity.
  split; [exact Hrun|]. split; [exact Hbad|].
  exact (transfer_stops_at_rejection E Sample.upload_url Sample.archive_path []
           (Ret false) [first; second] 1 second Hrun eq_refl Hbad).
Defined.

(** ** The retention loop *)

(** *** The order on creation times *)

Lemma lex_ltb_asym (a b : list Z) :
  Datetime.lex_ltb a b = true -> Datetime.lex_ltb b a = false.
Proof.
  revert b. induction a as [|x a IH]; intros [|y b]; simpl; try done.
  rewrite orb_true_iff, andb_true_iff, Z.ltb_lt, Z.eqb_eq.
  intros [Hlt|[-> Hab]].
  - apply orb_false_intro; [lia|].
    apply andb_false_intro1. lia.
  - rewrite (IH _ Hab), Z.ltb_irrefl. by rewrite andb_false_r.
Qed.

(** If [a] is before [b], any [c] is after [a] or before [b]. *)
Lemma lex_ltb_cotrans (a b c : list Z) :
  Datetime.lex_ltb a b = true ->
  Datetime.lex_ltb a c = true \/ Datetime.lex_ltb c b = true.
Proof.
  revert b c. induction a as [|x a IH]; intros [|y b] [|z c]; simpl; try done;
    try (by left); try (by right).
  rewrite !orb_true_iff, !andb_true_iff, !Z.ltb_lt, !Z.eqb_eq.
  intros [Hlt|[-> Hab]].
  - destruct (Z.lt_trichotomy x z) as [?|[->|?]]; [by left; left| |right; left; lia].
    right; left; lia.
  - destruct (Z.lt_trichotomy y z) as [?|[->|?]]; [by left; left| |by right; left].
    destruct (IH _ c Hab); [left|right]; by right.
Qed.

Lemma ltb_asym (a b : datetime) :
  Datetime.ltb a b = true -> Datetime.ltb b a = false.
Proof. apply lex_ltb_asym. Qed.

Lemma ltb_cotrans (a b c : datetime) :
  Datetime.ltb a b = true ->
  Datetime.ltb a c = true \/ Datetime.ltb c b = true.
Proof. apply lex_ltb_cotrans. Qed.

Lemma ltb_trans (a b c : datetime) :
  Datetime.ltb a b = true -> Datetime.ltb b c = true -> Datetime.ltb a c = true.
Proof.
  intros Hab Hbc. destruct (ltb_cotrans a b c Hab) as [|Hcb]; [done|].
  apply ltb_asym in Hbc. congruence.
Qed.

(** Before [b] and [c] not before [b]: before [c]. *)
Lemma ltb_before_not_older (a b c : datetime) :
  Datetime.ltb a b = true -> Datetime.ltb c b = false -> Datetime.ltb a c = true.
Proof.
  intros Hab Hcb. destruct (ltb_cotrans a b c Hab); congruence.
Qed.

(** *** One scan of the listing *)

Section Scan.

Variable E : environment.

Lemma scan_snoc (l : list item) (z : item) acc :
  Spo.scan E (l ++ [z]) acc = Spo.scan_step E (Spo.scan E l acc) z.
Proof. unfold Spo.scan. by rewrite fold_left_app. Qed.

Lemma scan_step_stamp (t0 : datetime) (n0 i0 : string) (z : item) :
  Spo.scan_step E (t0, n0, i0) z
  = match stamp E z with
    | Some u => if Datetime.ltb u t0
                then (u, Py.get_str z "name", entry_id z) else (t0, n0, i0)
    | None => (t0, n0, i0)
    end.
Proof. reflexivity. Qed.

(** A scan either leaves the three variables as they were, no entry being
    older than [t0], or leaves them at the oldest entry, the first of its
    age. *)
Lemma scan_spec (l : list item) (t0 : datetime) (n0 i0 : string) :
  (Spo.scan E l (t0, n0, i0) = (t0, n0, i0)
   /\ Forall (fun y => forall u, stamp E y = Some u -> Datetime.ltb u t0 = false) l)
  \/ (exists before x after t,
        l = before ++ x :: after
        /\ stamp E x = Some t
        /\ Datetime.ltb t t0 = true
        /\ Spo.scan E l (t0, n0, i0) = (t, Py.get_str x "name", entry_id x)
        /\ Forall (fun y => forall u, stamp E y = Some u -> Datetime.ltb t u = true) before
        /\ Forall (fun y => forall u, stamp E y = Some u -> Datetime.ltb u t = false) after).
Proof.
  induction l as [|z l IH] using rev_ind; [left; by split|].
  rewrite scan_snoc.
  destruct IH as [[-> Hnone]|(before & x & after & t & -> & Hx & Ht & -> & Hb & Ha)];
    rewrite scan_step_stamp.
  - destruct (stamp E z) as [u|] eqn:Hz.
    + destruct (Datetime.ltb u t0) eqn:Hu.
      * right. exists l, z, [], u. repeat split; [done..| |done].
        eapply Forall_impl; [exact Hnone|]. intros y Hy v Hv. simpl in Hy.
        eapply ltb_before_not_older; eauto.
      * left. split; [done|]. apply Forall_app. split; [done|].
        constructor; [|done]. intros v Hv. congruence.
    + left. split; [done|]. apply Forall_app. split; [done|].
      constructor; [|done]. intros v Hv. congruence.
  - assert (Hkeep :
      (Forall (fun y => forall u, stamp E y = Some u -> Datetime.ltb u t = false) [z]) ->
      exists before0 x0 after0 t1, (before ++ x :: after) ++ [z] = before0 ++ x0 :: after0
        /\ stamp E x0 = Some t1 /\ Datetime.ltb t1 t0 = true
        /\ (t, Py.get_str x "name", entry_id x) = (t1, Py.get_str x0 "name", entry_id x0)
        /\ Forall (fun y => forall u, stamp E y = Some u -> Datetime.ltb t1 u = true) before0
        /\ Forall (fun y => forall u, stamp E y = Some u -> Datetime.ltb u t1 = false) after0).
    { intros Hz. exists before, x, (after ++ [z]), t.
      rewrite <- app_assoc. repeat split; [done..|]. apply Forall_app. by split. }
    destruct (stamp E z) as [u|] eqn:Hz.
    + destruct (Datetime.ltb u t) eqn:Hu.
      * right. exists (before ++ x :: after), z, [], u.
        repeat split; [done|by eapply ltb_trans| |done].
        apply Forall_app. split; [|constructor].
        -- eapply Forall_impl; [exact Hb|]. intros y Hy v Hv. simpl in Hy.
           eapply ltb_trans; eauto.
        -- intros v Hv. congruence.
        -- eapply Forall_impl; [exact Ha|]. intros y Hy v Hv. simpl in Hy.
           eapply ltb_before_not_older; eauto.
      * right. apply Hkeep. constructor; [|done]. intros v Hv. congruence.
    + right. apply Hkeep. constructor; [|done]. intros v Hv. congruence.
Qed.

End Scan.

(** *** The steps of one pass *)

Section Pass.

Variable E : environment.
Variables (self : SpoController) (tok : string).
Hypothesis Htok : graph_token self !! "access_token" = Some tok.

Lemma bearer_run (w : world) :
  Spo.bearer self w = (Ret ("Bearer " +:+ tok), w).
Proof. unfold Spo.bearer, mbind, IO_bind, io_bind. by rewrite Htok. Qed.

(** [_delete_file] makes one call and reports whether it was answered 204. *)
Lemma delete_file_run (item_id : string) (w : world) :
  let c := delete_call self tok item_id in
  Spo._delete_file E self item_id w
  = (Ret (status_code (http_reply E w c) =? 204), w ++ [c]).
Proof.
  unfold Spo._delete_file, mbind, IO_bind, io_bind. rewrite bearer_run.
  unfold Spo.http_call, delete_call. simpl.
  by destruct (_ =? 204).
Qed.

End Pass.

(** The search for the entry to remove does not touch the log. *)
Lemma find_match_log (l : list item) (oldest_id : string) (w : world) :
  (Spo.find_match l oldest_id w).2 = w.
Proof.
  induction l as [|y l IH]; [done|].
  simpl. unfold mbind, IO_bind, io_bind.
  destruct (y !! "id") as [i|]; simpl; [|done].
  by destruct (String.eqb i oldest_id).
Qed.

(** Among entries with ids of their own, the search finds the entry itself. *)
Lemma find_match_found (before : list item) (x : item) (after : list item) (w : world) :
  Forall (fun y => is_Some (y !! "id")) (before ++ x :: after) ->
  NoDup (entry_id <$> before ++ x :: after) ->
  Spo.find_match (before ++ x :: after) (entry_id x) w = (Ret x, w).
Proof.
  induction before as [|y before IH]; simpl; intros Hid Hnd.
  - apply Forall_cons in Hid as [[i Hi] _].
    unfold mbind, IO_bind, io_bind, entry_id, Py.get_str. rewrite Hi. simpl.
    by rewrite String.eqb_refl.
  - apply Forall_cons in Hid as [[i Hi] Hid]. apply NoDup_cons in Hnd as [Hy Hnd].
    unfold mbind, IO_bind, io_bind. rewrite Hi. simpl.
    destruct (String.eqb i (entry_id x)) eqn:Heq.
    + apply String.eqb_eq in Heq. exfalso. apply Hy.
      assert (entry_id y = entry_id x) as ->
        by (unfold entry_id at 1, Py.get_str; by rewrite Hi).
      rewrite fmap_app, fmap_cons. apply elem_of_app. right. left.
    + by apply IH.
Qed.

(** Without an entry of that id, it comes back with the empty dictionary. *)
Lemma find_match_absent (l : list item) (oldest_id : string) (w : world) :
  Forall (fun y => exists i, y !! "id" = Some i /\ i <> oldest_id) l ->
  Spo.find_match l oldest_id w = (Ret ∅, w).
Proof.
  induction l as [|y l IH]; [done|]. intros [(i & Hi & Hne) Hl]%Forall_cons.
  simpl. unfold mbind, IO_bind, io_bind. rewrite Hi. simpl.
  apply String.eqb_neq in Hne. rewrite Hne. by apply IH.
Qed.

Lemma list_remove_length (x : item) (l l' : list item) :
  Spo.list_remove x l = Some l' -> length l = S (length l').
Proof.
  revert l'. induction l as [|y l IH]; intros l'; simpl; [done|].
  case_bool_decide.
  - by intros [= ->].
  - destruct (Spo.list_remove x l) as [l0|]; simpl; [|done].
    intros [= <-]. simpl. by rewrite (IH l0).
Qed.

Lemma list_remove_found (before : list item) (x : item) (after : list item) :
  NoDup (entry_id <$> before ++ x :: after) ->
  Spo.list_remove x (before ++ x :: after) = Some (before ++ after).
Proof.
  induction before as [|y before IH]; simpl; intros Hnd.
  - by rewrite bool_decide_eq_true_2.
  - apply NoDup_cons in Hnd as [Hy Hnd].
    rewrite bool_decide_eq_false_2.
    + by rewrite IH.
    + intros ->. apply Hy. rewrite fmap_app, fmap_cons. apply elem_of_app.
      right. left.
Qed.

Lemma eligible_without (E : environment) (limit : datetime)
    (before : list item) (x : item) (after : list item) :
  eligible E limit (before ++ x :: after) -> eligible E limit (before ++ after).
Proof.
  intros (Ht & Hid & Hnd). repeat split.
  - apply Forall_app in Ht as [? [_ ?]%Forall_cons]. apply Forall_app. by split.
  - apply Forall_app in Hid as [? [_ ?]%Forall_cons]. apply Forall_app. by split.
  - rewrite fmap_app in *. rewrite fmap_cons in Hnd.
    apply NoDup_app in Hnd as (? & Hdis & [_ ?]%NoDup_cons).
    apply NoDup_app. repeat split; [done| |done].
    intros i Hi Hin. apply (Hdis i Hi). by right.
Qed.

(** *** The loop *)

Section Loop.

Variable E : environment.
Variables (self : SpoController) (tok : string) (now limit : datetime).
Hypothesis Htok : graph_token self !! "access_token" = Some tok.
Hypothesis Hlimit : Datetime.new (year now + 1) (month now) (day now) = Some limit.

(** Within the bound the loop is not entered. *)
Lemma cleanup_loop_within (fuel : nat) (l : list item) (fn oid : string) (w : world) :
  Z.of_nat (length l) <= MAX_BACKUPS ->
  Spo.cleanup_loop E fuel self now l fn oid w = (Ret l, w).
Proof.
  intros Hlen. destruct fuel; simpl;
    (rewrite (proj2 (Z.ltb_ge _ _)) by done); reflexivity.
Qed.

(** One pass over a listing beyond the bound. *)
Lemma cleanup_loop_pass (fuel : nat) (l : list item) (fn oid : string) (w : world)
    (t' : datetime) (fn' oid' : string) :
  MAX_BACKUPS < Z.of_nat (length l) ->
  Spo.scan E l (limit, fn, oid) = (t', fn', oid') ->
  let c := delete_call self tok oid' in
  Spo.cleanup_loop E (S fuel) self now l fn oid w
  = if status_code (http_reply E w c) =? 204
    then (found ← Spo.find_match l oid';
          if bool_decide (found = ∅)
          then Spo.cleanup_loop E fuel self now l fn' oid'
          else l' ← or_raise ValueError (Spo.list_remove found l);
               Spo.cleanup_loop E fuel self now l' fn' oid') (w ++ [c])
    else (Ret l, w ++ [c]).
Proof.
  intros Hlen Hscan c. simpl.
  rewrite (proj2 (Z.ltb_lt _ _)) by done. simpl.
  rewrite Hlimit. step_bind. simpl.
  rewrite Hscan.
  step_bind.
  rewrite (delete_file_run E self tok Htok). fold c.
  by destruct (_ =? 204).
Qed.

(** On an eligible listing the scan settles on the oldest entry, the first
    of its age. *)
Lemma eligible_scan (l : list item) (fn oid : string) :
  eligible E limit l -> l <> [] ->
  exists before x after t,
    l = before ++ x :: after
    /\ oldest_first E before x after
    /\ Spo.scan E l (limit, fn, oid) = (t, Py.get_str x "name", entry_id x).
Proof.
  intros (Ht & _ & _) Hne.
  destruct (scan_spec E l limit fn oid)
    as [[_ Hnone]|(before & x & after & t & -> & Hx & _ & Hscan & Hb & Ha)].
  - destruct l as [|y l]; [done|].
    apply Forall_cons in Ht as [(t & Hy & Hlt) _].
    apply Forall_cons in Hnone as [Hno _]. specialize (Hno t Hy). congruence.
  - exists before, x, after, t. repeat split; [|done]. by exists t.
Qed.

(** Every deletion answered 204: an eligible listing of [MAX_BACKUPS + k]
    entries is brought down to [MAX_BACKUPS] in [k] passes, oldest first. *)
Lemma cleanup_loop_evicts (k : nat) :
  deletes_succeed E ->
  forall (l : list item) (fuel : nat) (fn oid : string) (w : world),
    eligible E limit l ->
    length l = (Z.to_nat MAX_BACKUPS + k)%nat ->
    (k <= fuel)%nat ->
    exists dels rest,
      evicts E l dels rest
      /\ length dels = k
      /\ length rest = Z.to_nat MAX_BACKUPS
      /\ Spo.cleanup_loop E fuel self now l fn oid w
         = (Ret rest, w ++ (delete_call self tok ∘ entry_id <$> dels)).
Proof.
  intros Hok.
  assert (Hok' : forall w i, status_code (http_reply E w (delete_call self tok i)) = 204)
    by (intros; apply Hok).
  induction k as [|k IH]; intros l fuel fn oid w Hel Hlen Hfuel.
  - exists [], l. assert (Z.of_nat (length l) <= MAX_BACKUPS) by (unfold MAX_BACKUPS in *; lia).
    repeat split; [by constructor|lia|].
    rewrite cleanup_loop_within by done. by rewrite app_nil_r.
  - destruct fuel as [|fuel]; [lia|].
    assert (Hbig : MAX_BACKUPS < Z.of_nat (length l)) by (unfold MAX_BACKUPS in *; lia).
    destruct (eligible_scan l fn oid Hel) as (before & x & after & t & -> & Hold & Hscan).
    { intros ->. simpl in Hlen. unfold MAX_BACKUPS in Hlen. lia. }
    pose proof Hel as (_ & Hid & Hnd).
    destruct (IH (before ++ after) fuel (Py.get_str x "name") (entry_id x)
                (w ++ [delete_call self tok (entry_id x)]))
      as (dels & rest & Hev & Hdels & Hrest & Hrun).
    { by eapply eligible_without. }
    { rewrite !length_app in *. cbn [length] in *. unfold MAX_BACKUPS in *. lia. }
    { lia. }
    exists (x :: dels), rest. repeat split; [by constructor|simpl; lia|done|].
    rewrite (cleanup_loop_pass _ _ _ _ _ _ _ _ Hbig Hscan), Hok'. simpl.
    step_bind.
    rewrite find_match_found by done.
    rewrite bool_decide_eq_false_2.
    + step_bind.
      rewrite list_remove_found by done. simpl.
      rewrite Hrun, <- app_assoc. reflexivity.
    + intros ->. apply Forall_app in Hid as [_ [[i Hi] _]%Forall_cons].
      by rewrite lookup_empty in Hi.
Qed.

(** A listing beyond the bound in which nothing parses: every pass asks for
    the deletion of the id the loop was entered with, and while that is
    answered 204 and no entry has this id, nothing changes. *)
Lemma cleanup_loop_spins (l : list item) (fn oid : string) :
  deletes_succeed E ->
  unparseable E l ->
  MAX_BACKUPS < Z.of_nat (length l) ->
  Forall (fun y => exists i, y !! "id" = Some i /\ i <> oid) l ->
  forall (fuel : nat) (w : world),
    Spo.cleanup_loop E fuel self now l fn oid w
    = (Spin, w ++ replicate fuel (delete_call self tok oid)).
Proof.
  intros Hok Hun Hbig Hids.
  assert (Hok' : forall w i, status_code (http_reply E w (delete_call self tok i)) = 204)
    by (intros; apply Hok).
  assert (Hscan : Spo.scan E l (limit, fn, oid) = (limit, fn, oid)).
  { destruct (scan_spec E l limit fn oid)
      as [[? _]|(before & x & after & t & -> & Hx & _)]; [done|].
    apply Forall_app in Hun as [_ [Hnone _]%Forall_cons]. congruence. }
  induction fuel as [|fuel IH]; intros w.
  - simpl. rewrite (proj2 (Z.ltb_lt _ _)) by done. simpl. by rewrite app_nil_r.
  - rewrite (cleanup_loop_pass _ _ _ _ _ _ _ _ Hbig Hscan), Hok'. simpl.
    step_bind.
    rewrite find_match_absent by done.
    rewrite bool_decide_eq_true_2 by done.
    rewrite IH, <- app_assoc. reflexivity.
Qed.

(** Whatever the listing and the replies: a deletion that is not answered
    204 is the last call of the loop, which then ends in the ordinary way.
    Each pass before it took at most one entry off the listing, and exactly
    one if the listing is eligible. *)
Lemma cleanup_loop_failure (fuel : nat) :
  forall (l : list item) (fn oid : string) (w : world),
  exists res calls,
    Spo.cleanup_loop E fuel self now l fn oid w = (res, w ++ calls)
    /\ ends_at_failure E limit l w res calls.
Proof.
  induction fuel as [|fuel IH]; intros l fn oid w.
  { destruct (Z.ltb MAX_BACKUPS (Z.of_nat (length l))) eqn:Hc; simpl; rewrite Hc; simpl.
    - exists Spin, []. split; [by rewrite app_nil_r|]. intros i c Hi. by rewrite lookup_nil in Hi.
    - exists (Ret l), []. split; [by rewrite app_nil_r|]. intros i c Hi. by rewrite lookup_nil in Hi. }
  destruct (Z.ltb MAX_BACKUPS (Z.of_nat (length l))) eqn:Hc.
  2:{ apply Z.ltb_ge in Hc. rewrite cleanup_loop_within by done.
      exists (Ret l), []. split; [by rewrite app_nil_r|].
      intros i c Hi. by rewrite lookup_nil in Hi. }
  apply Z.ltb_lt in Hc.
  destruct (Spo.scan E l (limit, fn, oid)) as [[t' fn'] oid'] eqn:Hscan.
  rewrite (cleanup_loop_pass _ _ _ _ _ _ _ _ Hc Hscan). simpl.
  set (c0 := delete_call self tok oid').
  (* what an eligible listing makes of this pass *)
  assert (Hel : eligible E limit l ->
            exists before x after,
              l = before ++ x :: after /\ oid' = entry_id x
              /\ eligible E limit (before ++ after)
              /\ Spo.find_match l oid' (w ++ [c0]) = (Ret x, w ++ [c0])
              /\ x <> ∅
              /\ Spo.list_remove x l = Some (before ++ after)).
  { intros Hel. pose proof Hel as (_ & Hid & Hnd).
    destruct (eligible_scan l fn oid Hel) as (before & x & after & t & -> & _ & Hscan').
    { intros ->. simpl in Hc. unfold MAX_BACKUPS in Hc. lia. }
    rewrite Hscan in Hscan'. injection Hscan' as _ _ ->.
    exists before, x, after.
    split; [done|]. split; [done|]. split; [by eapply eligible_without|].
    split; [by apply find_match_found|]. split; [|by apply list_remove_found].
    intros ->. apply Forall_app in Hid as [_ [[i Hi] _]%Forall_cons].
    by rewrite lookup_empty in Hi. }
  (* the pass ends the loop after its call *)
  assert (Hstop : forall res : outcome (list item),
            ends_at_failure E limit l w res [c0] ->
            exists res' calls, (res, w ++ [c0]) = (res', w ++ calls)
              /\ ends_at_failure E limit l w res' calls).
  { intros res H. by exists res, [c0]. }
  (* a call answered 204 is not a failure *)
  assert (Hfine : (status_code (http_reply E w c0) =? 204) = true ->
            forall res : outcome (list item), ends_at_failure E limit l w res [c0]).
  { intros Hs res [|i] c Hi Hbad; [|by rewrite lookup_cons, lookup_nil in Hi].
    injection Hi as <-. simpl in Hbad. rewrite app_nil_r in Hbad. congruence. }
  destruct (status_code (http_reply E w c0) =? 204) eqn:Hs.
  2:{ apply Hstop. intros [|i] c Hi Hbad; [|by rewrite lookup_cons, lookup_nil in Hi].
      split; [done|]. exists l. split; [done|]. split; [lia|]. split; [lia|]. lia. }
  (* the loop goes on with [next] *)
  assert (Hnext : forall next fn1 oid1,
            (length next <= length l)%nat -> (length l <= S (length next))%nat ->
            (eligible E limit l -> eligible E limit next /\ length l = S (length next)) ->
            exists res calls,
              Spo.cleanup_loop E fuel self now next fn1 oid1 (w ++ [c0]) = (res, w ++ calls)
              /\ ends_at_failure E limit l w res calls).
  { intros next fn1 oid1 Hle Hge Heln.
    destruct (IH next fn1 oid1 (w ++ [c0])) as (res & calls & Hrun & Hfail).
    exists res, (c0 :: calls). split; [by rewrite Hrun, <- app_assoc|].
    intros [|i] c Hi Hbad; simpl in Hi, Hbad.
    - injection Hi as <-. rewrite app_nil_r in Hbad. congruence.
    - rewrite (cons_middle c0 w), app_assoc in Hbad.
      destruct (Hfail i c Hi Hbad) as (Hlen & rest & -> & H1 & H2 & H3).
      split; [simpl; by rewrite Hlen|]. exists rest.
      split; [done|]. split; [lia|]. split; [lia|].
      intros Hl. destruct (Heln Hl) as [Hn ->]. rewrite (H3 Hn). lia. }
  step_bind.
  pose proof (find_match_log l oid' (w ++ [c0])) as Hlog.
  destruct (Spo.find_match l oid' (w ++ [c0])) as [[found|e|] w1] eqn:Hfind;
    simpl in Hlog; subst w1; [|by apply Hstop, Hfine..].
  case_bool_decide as Hempty.
  - apply Hnext; [lia..|]. intros Hl.
    destruct (Hel Hl) as (before & x & after & _ & _ & _ & Hfx & Hx & _).
    injection Hfx as <-. done.
  - step_bind.
    destruct (Spo.list_remove found l) as [l'|] eqn:Hrm; simpl;
      [|by apply Hstop, Hfine].
    apply list_remove_length in Hrm as Hlen.
    apply Hnext; [lia..|]. intros Hl.
    destruct (Hel Hl) as (before & x & after & _ & _ & Hel' & Hfx & _ & Hrx).
    injection Hfx as <-.
    rewrite Hrm in Hrx. injection Hrx as ->. by split.
Qed.

End Loop.

(** *** The folder query and [cleanup_files] *)

Section Cleanup.

Variable E : environment.
Variables (self : SpoController) (tok : string).
Hypothesis Htok : graph_token self !! "access_token" = Some tok.

Lemma query_graph_run (url : string) (w : world) :
  let url' := if Py.not_str url then endpoint self else url in
  let resp := http_reply E w (query_call tok url') in
  Spo.query_graph E self url w
  = (if status_code resp =? 200
     then match json resp with Some body => Ret body | None => Raise JSONDecodeError end
     else Ret (mk_jdict {[ "error" := text resp;
                           "status" := Py.str (status_code resp) ]} None),
     w ++ [query_call tok url']).
Proof.
  unfold Spo.query_graph, mbind, IO_bind, io_bind. rewrite (bearer_run self tok Htok).
  unfold Spo.http_call, query_call. simpl.
  destruct (_ =? 200); simpl; [|done].
  unfold Spo.resp_json. by destruct (json _).
Qed.

(** [cleanup_files] is the loop on the listing the query came back with,
    entered with the empty id. *)
Lemma cleanup_files_run (fuel : nat) (w : world) (body : gmap string string)
    (items : list item) :
  let q := query_call tok (endpoint self) in
  status_code (http_reply E w q) = 200 ->
  json (http_reply E w q) = Some (mk_jdict body (Some items)) ->
  Spo.cleanup_files E fuel self w
  = match Spo.cleanup_loop E fuel self (utcnow E) items "" "" (w ++ [q]) with
    | (Ret _, w') => (Ret tt, w')
    | (Raise e, w') => (Raise e, w')
    | (Spin, w') => (Spin, w')
    end.
Proof.
  intros q Hs Hj. unfold Spo.cleanup_files.
  step_bind.
  rewrite query_graph_run.
  assert ((if Py.not_str (endpoint self) then endpoint self else endpoint self)
          = endpoint self) as -> by (by destruct (Py.not_str _)).
  fold q. rewrite Hs, Hj. simpl.
  unfold mbind, IO_bind, io_bind.
  by destruct (Spo.cleanup_loop _ _ _ _ _ _ _ _) as [[?|?|] ?].
Qed.

End Cleanup.

(** Without a token, or on a day that has no namesake a year later, the loop
    makes no call. *)
Lemma cleanup_loop_no_call E (fuel : nat) (self : SpoController) (now : datetime)
    (l : list item) (fn oid : string) (w : world) :
  graph_token self !! "access_token" = None
  \/ Datetime.new (year now + 1) (month now) (day now) = None ->
  (Spo.cleanup_loop E fuel self now l fn oid w).2 = w.
Proof.
  intros Hno. destruct fuel as [|fuel]; simpl;
    destruct (MAX_BACKUPS <? Z.of_nat (length l)); simpl; try done.
  step_bind.
  destruct (Datetime.new _ _ _) as [limit|] eqn:Hlimit; simpl; [|done].
  destruct Hno as [Hno|]; [|done].
  destruct (Spo.scan E l (limit, fn, oid)) as [[? ?] oid'].
  step_bind.
  unfold Spo._delete_file, Spo.bearer, mbind, IO_bind, io_bind. by rewrite Hno.
Qed.

(** On a 29th of February the limit of the scan is a date that does not
    exist: a listing beyond the bound makes the loop raise before its first
    call. *)
Lemma cleanup_loop_leap_day E (fuel : nat) (self : SpoController)
    (l : list item) (fn oid : string) (w : world) :
  MAX_BACKUPS < Z.of_nat (length l) ->
  Spo.cleanup_loop E (S fuel) self (mk_datetime 2024 2 29 12 0 0) l fn oid w
  = (Raise ValueError, w).
Proof.
  intros Hbig. simpl. by rewrite (proj2 (Z.ltb_lt _ _)) by done.
Qed.

(** An entry whose creation time does not parse is invisible to the scan. *)
Lemma scan_skips_unparseable E (before : list item) (y : item) (after : list item) acc :
  stamp E y = None ->
  Spo.scan E (before ++ y :: after) acc = Spo.scan E (before ++ after) acc.
Proof.
  intros Hy. unfold Spo.scan. rewrite !fold_left_app. simpl. f_equal.
  destruct (fold_left _ before acc) as [[t0 n0] i0].
  rewrite scan_step_stamp. by rewrite Hy.
Qed.

(** The oldest entry, first of its age, is one entry: the listing splits
    around it in one way only. *)
Lemma oldest_first_unique E (before before' : list item) (x x' : item)
    (after after' : list item) :
  before ++ x :: after = before' ++ x' :: after' ->
  oldest_first E before x after ->
  oldest_first E before' x' after' ->
  before' = before /\ x' = x /\ after' = after.
Proof.
  intros Heq (t & Hx & Hb & Ha) (t' & Hx' & Hb' & Ha').
  revert before' Heq Hb'.
  induction before as [|y before IHb]; intros [|y' before'] Heq Hb'; simpl in Heq.
  - by injection Heq as -> ->.
  - injection Heq as -> ->. apply Forall_cons in Hb' as [Hb' _].
    apply Forall_app in Ha as [_ [Ha _]%Forall_cons].
    specialize (Hb' _ Hx). specialize (Ha _ Hx'). congruence.
  - injection Heq as -> <-. apply Forall_cons in Hb as [Hb _].
    apply Forall_app in Ha' as [_ [Ha' _]%Forall_cons].
    specialize (Hb _ Hx'). specialize (Ha' _ Hx). congruence.
  - injection Heq as -> Heq. apply Forall_cons in Hb as [_ Hb].
    apply Forall_cons in Hb' as [_ Hb'].
    destruct (IHb Hb before' Heq Hb') as (-> & -> & ->). done.
Qed.

(** So the order of eviction is determined by the listing. *)
Lemma evicts_unique E (l dels rest dels' rest' : list item) :
  evicts E l dels rest -> evicts E l dels' rest' -> dels' = dels /\ rest' = rest.
Proof.
  intros Hev. revert dels' rest'.
  induction Hev as [l Hl|before x after dels rest Hl Hold Hev IH]; intros dels' rest' Hev'.
  - inversion Hev' as [|before' x' after' ? ? Hl' ? ? Heq]; [done|].
    subst. lia.
  - inversion Hev' as [? Hl'|before' x' after' ? ? Hl' Hold' Hev'' Heq]; subst.
    { lia. }
    destruct (oldest_first_unique E _ _ _ _ _ _ (eq_sym Heq) Hold Hold')
      as (-> & -> & ->).
    destruct (IH _ _ Hev'') as [-> ->]. done.
Qed.

(** *** The claims about the retention loop *)

(** C3, as amended.  Take a listing of [N] entries, [N] above [MAX_BACKUPS],
    in which every entry has an id of its own and a creation time that parses
    and lies before the limit of the scan (midnight of today's date a year
    later, on a day for which that date exists), and a remote side that
    answers every deletion with 204.  Then [cleanup_files], given [N -
    MAX_BACKUPS] units of fuel or more, returns after the query and exactly
    [N - MAX_BACKUPS] deletions, each of the oldest entry still listed, the
    first one of its age in the order of the listing. *)
Theorem retention_evicts_oldest E (self : SpoController) (tok : string)
    (limit : datetime) (body : gmap string string) (items : list item) (w : world) :
  graph_token self !! "access_token" = Some tok ->
  Datetime.new (year (utcnow E) + 1) (month (utcnow E)) (day (utcnow E)) = Some limit ->
  status_code (http_reply E w (query_call tok (endpoint self))) = 200 ->
  json (http_reply E w (query_call tok (endpoint self)))
    = Some (mk_jdict body (Some items)) ->
  eligible E limit items ->
  MAX_BACKUPS < Z.of_nat (length items) ->
  deletes_succeed E ->
  exists dels rest,
    evicts E items dels rest
    /\ Z.of_nat (length dels) = Z.of_nat (length items) - MAX_BACKUPS
    /\ Z.of_nat (length rest) = MAX_BACKUPS
    /\ forall fuel : nat,
         (length dels <= fuel)%nat ->
         Spo.cleanup_files E fuel self w
         = (Ret tt,
            w ++ query_call tok (endpoint self)
              :: (delete_call self tok ∘ entry_id <$> dels)).
Proof.
  intros Htok Hlimit Hs Hj Hel Hbig Hok.
  set (k := (length items - Z.to_nat MAX_BACKUPS)%nat).
  assert (Hlen : length items = (Z.to_nat MAX_BACKUPS + k)%nat)
    by (unfold MAX_BACKUPS in *; lia).
  destruct (cleanup_loop_evicts E self tok (utcnow E) limit Htok Hlimit k Hok
              items k "" "" [] Hel Hlen (le_n k))
    as (dels & rest & Hev & Hdels & Hrest & _).
  exists dels, rest. split; [done|].
  split; [unfold MAX_BACKUPS in *; lia|]. split; [unfold MAX_BACKUPS in *; lia|].
  intros fuel Hfuel.
  rewrite (cleanup_files_run E self tok Htok fuel w body items Hs Hj).
  destruct (cleanup_loop_evicts E self tok (utcnow E) limit Htok Hlimit k Hok
              items fuel "" "" (w ++ [query_call tok (endpoint self)]) Hel Hlen)
    as (dels' & rest' & Hev' & _ & _ & ->); [lia|].
  rewrite <- app_assoc. simpl.
  by destruct (evicts_unique E _ _ _ _ _ Hev Hev') as [-> _].
Qed.

(** The six backups of the example are an eligible listing. *)
Lemma six_eligible :
  eligible (Sample.site Sample.six (fun _ => 202) (fun _ => 204) 25000000)
    (mk_datetime 2025 5 17 0 0 0) Sample.six.
Proof.
  split; [|split].
  - repeat (constructor; [eexists; split; [vm_compute; reflexivity|reflexivity]|]).
    constructor.
  - repeat (constructor; [eexists; reflexivity|]). constructor.
  - apply (bool_decide_unpack _). vm_compute. reflexivity.
Qed.

(** Six backups, four to keep: the two oldest go. *)
Lemma retention_evicts_oldest_witness :
  exists dels rest,
    evicts (Sample.site Sample.six (fun _ => 202) (fun _ => 204) 25000000)
      Sample.six dels rest
    /\ Z.of_nat (length dels) = 2
    /\ Spo.cleanup_files (Sample.site Sample.six (fun _ => 202) (fun _ => 204) 25000000)
         2 Sample.spo []
       = (Ret tt,
          query_call Sample.tok Sample.folder
            :: (delete_call Sample.spo Sample.tok ∘ entry_id <$> dels)).
Proof.
  set (E := Sample.site Sample.six (fun _ => 202) (fun _ => 204) 25000000).
  destruct (retention_evicts_oldest E Sample.spo Sample.tok
              (mk_datetime 2025 5 17 0 0 0) ∅ Sample.six [])
    as (dels & rest & Hev & Hlen & _ & Hrun).
  - reflexivity.
  - reflexivity.
  - reflexivity.
  - reflexivity.
  - exact six_eligible.
  - reflexivity.
  - intros w url headers. reflexivity.
  - assert (Htwo : Z.of_nat (length dels) = 2) by exact Hlen.
    exists dels, rest. split; [exact Hev|]. split; [exact Htwo|].
    apply Hrun. lia.
Defined.

(** The run on the six backups: the oldest, [id-a], goes first, then
    [id-b]. *)
Example retention_six_oldest_first :
  Spo.cleanup_files (Sample.site Sample.six (fun _ => 202) (fun _ => 204) 25000000)
    2 Sample.spo []
  = (Ret tt,
     [query_call Sample.tok Sample.folder;
      delete_call Sample.spo Sample.tok "id-a";
      delete_call Sample.spo Sample.tok "id-b"]).
Proof. vm_compute. reflexivity. Qed.

(** C3, as stated, fails on a listing stamped beyond the limit of the scan.
    Five entries, every creation time parses, every deletion is answered
    204: one deletion is due.  No entry is ever selected; three passes have
    asked three times for the deletion of the empty id, and the loop is
    still running. *)
Lemma retention_stamped_ahead_counterexample :
  Z.of_nat (length Sample.ahead) - MAX_BACKUPS = 1
  /\ Forall (fun y => is_Some
               (stamp (Sample.site Sample.ahead (fun _ => 202) (fun _ => 204) 25000000) y))
       Sample.ahead
  /\ deletes_succeed (Sample.site Sample.ahead (fun _ => 202) (fun _ => 204) 25000000)
  /\ Spo.cleanup_files (Sample.site Sample.ahead (fun _ => 202) (fun _ => 204) 25000000)
       3 Sample.spo []
     = (Spin,
        [query_call Sample.tok Sample.folder;
         delete_call Sample.spo Sample.tok "";
         delete_call Sample.spo Sample.tok "";
         delete_call Sample.spo Sample.tok ""]).
Proof.
  split; [reflexivity|]. split; [|split].
  - repeat (constructor; [eexists; vm_compute; reflexivity|]). constructor.
  - intros w url headers. reflexivity.
  - vm_compute. reflexivity.
Qed.

(** C5, as amended.  Whatever the listing, of [N] entries, and whatever the
    replies: if the [k]-th deletion the loop attempts, [k] counted from 1, is
    not answered 204, it is the last call the loop makes, and the loop ends
    in the ordinary way, without an exception.  Of the [N] entries at most
    [k - 1] are gone from the listing, and exactly [k - 1] are, so that
    [N - (k - 1)] are left, if the listing is eligible. *)
Theorem retention_stops_at_failed_deletion E (self : SpoController) (now : datetime)
    (l : list item) (fn oid : string) (fuel : nat) (w : world)
    (res : outcome (list item)) (calls : list call) (k : nat) (c : call) :
  Spo.cleanup_loop E fuel self now l fn oid w = (res, w ++ calls) ->
  (1 <= k)%nat ->
  calls !! (k - 1)%nat = Some c ->
  status_code (http_reply E (w ++ take (k - 1) calls) c) <> 204 ->
  length calls = k
  /\ exists rest : list item,
       res = Ret rest
       /\ (length rest <= length l)%nat
       /\ (length l <= length rest + (k - 1))%nat
       /\ forall limit,
            Datetime.new (year now + 1) (month now) (day now) = Some limit ->
            eligible E limit l ->
            (length rest + (k - 1))%nat = length l.
Proof.
  intros Hrun Hk Hc Hbad.
  destruct (graph_token self !! "access_token") as [tok|] eqn:Htok.
  2:{ pose proof (cleanup_loop_no_call E fuel self now l fn oid w (or_introl Htok)) as H.
      rewrite Hrun in H. simpl in H. rewrite <- (app_nil_r w) in H at 2.
      apply app_inv_head in H. subst calls. by rewrite lookup_nil in Hc. }
  destruct (Datetime.new (year now + 1) (month now) (day now)) as [limit|] eqn:Hlimit.
  2:{ pose proof (cleanup_loop_no_call E fuel self now l fn oid w (or_intror Hlimit)) as H.
      rewrite Hrun in H. simpl in H. rewrite <- (app_nil_r w) in H at 2.
      apply app_inv_head in H. subst calls. by rewrite lookup_nil in Hc. }
  destruct (cleanup_loop_failure E self tok now limit Htok Hlimit fuel l fn oid w)
    as (res' & calls' & Hrun' & Hfail).
  rewrite Hrun in Hrun'. injection Hrun' as <- <-%app_inv_head.
  apply Z.eqb_neq in Hbad.
  destruct (Hfail _ _ Hc Hbad) as (Hlen & rest & -> & H1 & H2 & H3).
  split; [lia|]. exists rest. split; [done|]. split; [done|]. split; [done|].
  intros limit' [= <-] Hel. by rewrite (H3 Hel).
Qed.

(** The second deletion is answered 404: it is the last call, and five of
    the six entries are left. *)
Lemma retention_stops_at_failed_deletion_witness :
  Spo.cleanup_loop
    (Sample.site Sample.six (fun _ => 202) (fun n => if Nat.eqb n 1 then 404 else 204)
       25000000)
    5 Sample.spo Sample.today Sample.six "" "" []
  = (Ret (delete 1%nat Sample.six),
     [delete_call Sample.spo Sample.tok "id-a";
      delete_call Sample.spo Sample.tok "id-b"])
  /\ (length (delete 1%nat Sample.six) + (2 - 1))%nat = length Sample.six.
Proof.
  set (E := Sample.site Sample.six (fun _ => 202)
              (fun n => if Nat.eqb n 1 then 404 else 204) 25000000).
  set (calls := [delete_call Sample.spo Sample.tok "id-a";
                 delete_call Sample.spo Sample.tok "id-b"]).
  assert (Hrun : Spo.cleanup_loop E 5 Sample.spo Sample.today Sample.six "" "" []
                 = (Ret (delete 1%nat Sample.six), [] ++ calls))
    by (vm_compute; reflexivity).
  split; [exact Hrun|].
  destruct (retention_stops_at_failed_deletion E Sample.spo Sample.today Sample.six
              "" "" 5 [] _ calls 2 (delete_call Sample.spo Sample.tok "id-b") Hrun)
    as (_ & rest & Hrest & _ & _ & Hleft).
  - lia.
  - reflexivity.
  - vm_compute. discriminate.
  - injection Hrest as <-.
    apply (Hleft (mk_datetime 2025 5 17 0 0 0)); [reflexivity|].
    exact six_eligible.
Defined.

(** C5, as stated, counts one entry too few.  The first deletion attempted
    ([k = 1]) is answered 404: it was the only call, and all six entries are
    left, not [6 - 1]. *)
Lemma retention_first_deletion_fails_counterexample :
  Spo.cleanup_loop
    (Sample.site Sample.six (fun _ => 202) (fun _ => 404) 25000000)
    5 Sample.spo Sample.today Sample.six "" "" []
  = (Ret Sample.six, [delete_call Sample.spo Sample.tok "id-a"])
  /\ status_code
       (http_reply (Sample.site Sample.six (fun _ => 202) (fun _ => 404) 25000000)
          [] (delete_call Sample.spo Sample.tok "id-a")) = 404
  /\ length Sample.six = 6%nat
  /\ length Sample.six <> (6 - 1)%nat.
Proof.
  split; [vm_compute; reflexivity|]. split; [reflexivity|]. split; [reflexivity|].
  simpl. lia.
Qed.

(** C8, as amended.  An entry whose creation time does not parse is counted
    by the test of the loop, which looks at the length of the listing, and is
    invisible to the scan.  So on a listing beyond the bound in which no
    creation time parses, no pass selects anything.  With the token held, on
    a day whose date exists a year later, and with an id on every entry:
    each pass asks for the deletion of the id the loop holds from before, and
    as long as that is answered 204 and no entry has this id, the listing
    stays as it is and the loop goes on, for any amount of fuel.  [cleanup_files] enters the loop
    with the empty id, so from there it is the empty id that is asked for. *)
Theorem retention_unparseable_spins E (self : SpoController) (tok : string)
    (limit : datetime) (l : list item) (fn oid : string) :
  graph_token self !! "access_token" = Some tok ->
  Datetime.new (year (utcnow E) + 1) (month (utcnow E)) (day (utcnow E)) = Some limit ->
  deletes_succeed E ->
  unparseable E l ->
  MAX_BACKUPS < Z.of_nat (length l) ->
  Forall (fun y => exists i, y !! "id" = Some i /\ i <> oid) l ->
  (forall before y after acc,
     stamp E y = None ->
     Spo.scan E (before ++ y :: after) acc = Spo.scan E (before ++ after) acc)
  /\ (forall acc, Spo.scan E l acc = acc)
  /\ (forall (fuel : nat) (w : world),
        Spo.cleanup_loop E fuel self (utcnow E) l fn oid w
        = (Spin, w ++ replicate fuel (delete_call self tok oid)))
  /\ (forall (fuel : nat) (w : world) (body : gmap string string),
        oid = "" ->
        status_code (http_reply E w (query_call tok (endpoint self))) = 200 ->
        json (http_reply E w (query_call tok (endpoint self)))
          = Some (mk_jdict body (Some l)) ->
        Spo.cleanup_files E fuel self w
        = (Spin,
           w ++ query_call tok (endpoint self)
             :: replicate fuel (delete_call self tok ""))).
Proof.
  intros Htok Hlimit Hok Hun Hbig Hids.
  split; [intros; by apply scan_skips_unparseable|].
  split.
  { intros [[t0 n0] i0].
    destruct (scan_spec E l t0 n0 i0)
      as [[? _]|(before & x & after & t & -> & Hx & _)]; [done|].
    apply Forall_app in Hun as [_ [Hnone _]%Forall_cons]. congruence. }
  split.
  { by apply (cleanup_loop_spins E self tok (utcnow E) limit). }
  intros fuel w body -> Hs Hj.
  rewrite (cleanup_files_run E self tok Htok fuel w body l Hs Hj).
  rewrite (cleanup_loop_spins E self tok (utcnow E) limit Htok Hlimit l "" "" Hok Hun Hbig Hids).
  by rewrite <- app_assoc.
Qed.

(** Five entries that do not parse: three passes, three requests for the
    deletion of the empty id. *)
Lemma retention_unparseable_spins_witness :
  Spo.cleanup_files
    (Sample.site Sample.unreadable (fun _ => 202) (fun _ => 204) 25000000)
    3 Sample.spo []
  = (Spin,
     [] ++ query_call Sample.tok Sample.folder
       :: replicate 3 (delete_call Sample.spo Sample.tok "")).
Proof.
  set (E := Sample.site Sample.unreadable (fun _ => 202) (fun _ => 204) 25000000).
  destruct (retention_unparseable_spins E Sample.spo Sample.tok
              (mk_datetime 2025 5 17 0 0 0) Sample.unreadable "" "")
    as (_ & _ & _ & Hrun).
  - reflexivity.
  - reflexivity.
  - intros w url headers. reflexivity.
  - repeat (constructor; [vm_compute; reflexivity|]). constructor.
  - reflexivity.
  - repeat (constructor; [eexists; split; [reflexivity|discriminate]|]). constructor.
  - apply (Hrun 3%nat [] ∅); reflexivity.
Defined.

(** C8, as stated, names the wrong id once a pass has selected something.
    One backup among five entries that do not parse, every deletion answered
    204.  The first pass selects the backup; after it five entries are left,
    above the bound, and none of them parses.  From there on the loop asks
    for the deletion of [id-a] again, the id the first pass left behind, not
    of the empty id. *)
Lemma retention_stale_id_counterexample :
  unparseable (Sample.site Sample.mixed (fun _ => 202) (fun _ => 204) 25000000)
    Sample.unreadable
  /\ MAX_BACKUPS < Z.of_nat (length Sample.unreadable)
  /\ Spo.cleanup_files (Sample.site Sample.mixed (fun _ => 202) (fun _ => 204) 25000000)
       3 Sample.spo []
     = (Spin,
        [query_call Sample.tok Sample.folder;
         delete_call Sample.spo Sample.tok "id-a";
         delete_call Sample.spo Sample.tok "id-a";
         delete_call Sample.spo Sample.tok "id-a"])
  /\ Spo.cleanup_loop (Sample.site Sample.mixed (fun _ => 202) (fun _ => 204) 25000000)
       2 Sample.spo Sample.today Sample.unreadable "repo_2024-01-01.zip" "id-a"
       [query_call Sample.tok Sample.folder; delete_call Sample.spo Sample.tok "id-a"]
     = (Spin,
        [query_call Sample.tok Sample.folder;
         delete_call Sample.spo Sample.tok "id-a";
         delete_call Sample.spo Sample.tok "id-a";
         delete_call Sample.spo Sample.tok "id-a"])
  /\ delete_call Sample.spo Sample.tok "id-a" <> delete_call Sample.spo Sample.tok "".
Proof.
  split; [|split; [reflexivity|split; [|split]]].
  - repeat (constructor; [vm_compute; reflexivity|]). constructor.
  - vm_compute. reflexivity.
  - vm_compute. reflexivity.
  - vm_compute. discriminate.
Qed.

(** ** The gates of the pipeline *)

(** [validate_info] looks at the names of the attributes, never at what they
    hold, and no name is empty. *)
Lemma validate_info_always_true (self : SpoController) :
  Spo.validate_info self = true.
Proof. reflexivity. Qed.

(** C6.  The check the claim describes is not the check the code makes.
    Started without [SPOBKP_SECRET], the controller holds the empty secret,
    [validate_info] still answers [True], and the pipeline goes on to ask the
    identity provider for a token, over the network. *)
Theorem validate_info_misses_empty_secret :
  secret (Spo.init Sample.site_without_secret) = ""
  /\ Spo.validate_info (Spo.init Sample.site_without_secret) = true
  /\ exists app scopes,
       Main.manage_spo Sample.site_without_secret 5 Sample.archive_path "repo.zip" []
       = (Ret tt, [AcquireTokenSilent app scopes; AcquireTokenForClient app scopes])
       /\ app_client_credential app = ""
       /\ is_network (AcquireTokenForClient app scopes) = true.
Proof.
  split; [reflexivity|]. split; [reflexivity|].
  eexists _, _. split; [vm_compute; reflexivity|]. split; reflexivity.
Qed.

(** *** The upload session *)

(** What [_get_upload_url] returns is read from the body; the status of the
    reply plays no part in it. *)
Lemma get_upload_url_ignores_status E (self : SpoController) (tok : string)
    (dir_id file_name : string) (w : world) :
  graph_token self !! "access_token" = Some tok ->
  let c := Post (Py.split_head "/root:" (endpoint self) +:+ "/items/" +:+ dir_id
                 +:+ ":/" +:+ file_name +:+ ":/createUploadSession")
             {[ "Authorization" := "Bearer " +:+ tok;
                "Content-Type" := "application/json" ]}
             (Spo.url_payload file_name) in
  Spo._get_upload_url E self dir_id file_name w
  = (match json (http_reply E w c) with
     | Some body => Ret (Py.get_str (members body) "uploadUrl")
     | None => Raise JSONDecodeError
     end, w ++ [c]).
Proof.
  intros Htok c. unfold Spo._get_upload_url, mbind, IO_bind, io_bind.
  rewrite (bearer_run self tok Htok). unfold Spo.http_call, Spo.resp_json. fold c.
  by destruct (json _).
Qed.

(** With the empty string for a URL, [upload_file] sends no chunk and
    reports failure. *)
Lemma upload_file_without_url E (self : SpoController)
    (dir_id file_path file_name : string) (w w' : world) :
  Spo._get_upload_url E self dir_id file_name w = (Ret "", w') ->
  Spo.upload_file E self dir_id file_path file_name w = (Ret false, w').
Proof.
  intros Hurl. unfold Spo.upload_file, mbind, IO_bind, io_bind. by rewrite Hurl.
Qed.

(** C7.  The operation does not return the empty string on every status
    outside 200 and 201.  A reply of status 500 whose body carries an
    [uploadUrl]: the URL is returned and the three chunks of the archive are
    sent to it.  A reply of status 502 whose body is not JSON: the operation
    raises instead of returning. *)
Theorem get_upload_url_passes_failed_status :
  status_code (http_reply
                 (Sample.site_with_session
                    (Sample.json_reply 500 {[ "uploadUrl" := Sample.upload_url ]}))
                 [] Sample.session_call) = 500
  /\ Spo._get_upload_url
       (Sample.site_with_session
          (Sample.json_reply 500 {[ "uploadUrl" := Sample.upload_url ]}))
       Sample.spo "01FOLDER" "repo.zip" []
     = (Ret Sample.upload_url, [Sample.session_call])
  /\ Spo.upload_file
       (Sample.site_with_session
          (Sample.json_reply 500 {[ "uploadUrl" := Sample.upload_url ]}))
       Sample.spo "01FOLDER" Sample.archive_path "repo.zip" []
     = (Ret true,
        [Sample.session_call;
         put_at Sample.upload_url 25000000 0;
         put_at Sample.upload_url 25000000 10485760;
         put_at Sample.upload_url 25000000 20971520])
  /\ Spo._get_upload_url (Sample.site_with_session (Sample.reply 502))
       Sample.spo "01FOLDER" "repo.zip" []
     = (Raise JSONDecodeError, [Sample.session_call]).
Proof.
  split; [reflexivity|]. split; [vm_compute; reflexivity|].
  split; vm_compute; reflexivity.
Qed.

(** *** The token *)

(** C9.  Once [check_token] has answered [True] for a controller, the key
    [access_token] is in its token dictionary, under some value [tok], and
    each remote operation on this controller finds it: the folder query, the
    session request and the deletion make their call with the header
    [Authorization: Bearer tok], and none of them ends in a [KeyError]. *)
Theorem token_lookup_cannot_fail (self : SpoController) :
  Spo.check_token self = true ->
  exists tok,
    graph_token self !! "access_token" = Some tok
    /\ (forall w, Spo.bearer self w = (Ret ("Bearer " +:+ tok), w))
    /\ (forall E url w,
          exists res url',
            Spo.query_graph E self url w
            = (res, w ++ [Get url' {[ "Authorization" := "Bearer " +:+ tok;
                                      "Content-Type" := "application/json" ]}])
            /\ forall key, res <> Raise (KeyError key))
    /\ (forall E dir_id file_name w,
          exists res url',
            Spo._get_upload_url E self dir_id file_name w
            = (res, w ++ [Post url' {[ "Authorization" := "Bearer " +:+ tok;
                                       "Content-Type" := "application/json" ]}
                            (Spo.url_payload file_name)])
            /\ forall key, res <> Raise (KeyError key))
    /\ (forall E item_id w,
          exists res url',
            Spo._delete_file E self item_id w
            = (res, w ++ [Delete url' {[ "Authorization" := "Bearer " +:+ tok ]}])
            /\ forall key, res <> Raise (KeyError key)).
Proof.
  unfold Spo.check_token. intros [tok Htok]%bool_decide_eq_true.
  exists tok. split; [done|]. split; [by apply bearer_run|]. split; [|split].
  - intros E url w. eexists _, _. split.
    + rewrite (query_graph_run E self tok Htok). reflexivity.
    + intros key. destruct (_ =? 200); [|done]. by destruct (json _).
  - intros E dir_id file_name w. eexists _, _. split.
    + rewrite (get_upload_url_ignores_status E self tok _ _ _ Htok). reflexivity.
    + intros key. by destruct (json _).
  - intros E item_id w. eexists _, _. split.
    + rewrite (delete_file_run E self tok Htok). reflexivity.
    + done.
Qed.

(** The controller of the examples holds a token. *)
Lemma token_lookup_cannot_fail_witness :
  Spo.check_token Sample.spo = true
  /\ exists tok,
       graph_token Sample.spo !! "access_token" = Some tok
       /\ forall w, Spo.bearer Sample.spo w = (Ret ("Bearer " +:+ tok), w).
Proof.
  assert (Hcheck : Spo.check_token Sample.spo = true) by (vm_compute; reflexivity).
  split; [exact Hcheck|].
  destruct (token_lookup_cannot_fail Sample.spo Hcheck) as (tok & Htok & Hbearer & _).
  exists tok. split; [exact Htok|exact Hbearer].
Defined.

(** *** The URL of the directory lookup *)

Lemma append_nil_l (s : string) : "" +:+ s = s.
Proof. reflexivity. Qed.

Lemma append_cons (c : Ascii.ascii) (s t : string) :
  String c s +:+ t = String c (s +:+ t).
Proof. reflexivity. Qed.

Lemma rstrip_all_in (chars s : string) :
  Py.all_in chars s = true -> Py.rstrip chars s = "".
Proof.
  induction s as [|c rest IH]; simpl; [done|].
  intros [Hc Hrest]%andb_true_iff. by rewrite (IH Hrest), Hc.
Qed.

(** What [rstrip] takes off is made of characters of the set. *)
Lemma rstrip_split (chars s : string) :
  exists tail, s = Py.rstrip chars s +:+ tail /\ Py.all_in chars tail = true.
Proof.
  induction s as [|c rest (tail & Hrest & Htail)]; simpl; [by exists ""|].
  destruct (Py.rstrip chars rest) as [|c' kept] eqn:Hkept.
  - rewrite append_nil_l in Hrest. subst tail. destruct (Py.char_in c chars) eqn:Hc.
    + exists (String c rest). simpl. by rewrite Hc, Htail.
    + by exists rest.
  - exists tail. split; [|done]. rewrite append_cons. by f_equal.
Qed.

(** And it takes off all there is to take: whatever tail of [s] is made of
    characters of the set, what stands before it begins with what [rstrip]
    keeps. *)
Lemma rstrip_maximal (chars s p t : string) :
  s = p +:+ t -> Py.all_in chars t = true ->
  exists t', p = Py.rstrip chars s +:+ t'.
Proof.
  revert p. induction s as [|c rest IH]; intros p Hs Ht.
  - destruct p; [by exists ""|done].
  - destruct p as [|c' p'].
    + rewrite append_nil_l in Hs. subst t. rewrite (rstrip_all_in _ _ Ht). by exists "".
    + rewrite append_cons in Hs. injection Hs as <- Hrest.
      destruct (IH p' Hrest Ht) as (t' & Hp'). simpl.
      destruct (Py.rstrip chars rest) as [|c'' kept].
      * destruct (Py.char_in c chars); [by exists (String c p')|by exists p'].
      * exists t'. rewrite append_cons. by f_equal.
Qed.

(** C10.  [rstrip] with the argument [":/children/"] takes off the longest
    tail made of the characters of that argument, not the suffix
    [":/children"].  For the endpoint of the folder [archive] the two differ:
    the [e] of the folder name goes too, and the pipeline looks the directory
    up under [.../root:/archiv]. *)
Theorem dir_lookup_url_truncated :
  (forall s : string,
     exists tail,
       s = Py.rstrip ":/children/" s +:+ tail
       /\ Py.all_in ":/children/" tail = true
       /\ forall p t, s = p +:+ t -> Py.all_in ":/children/" t = true ->
            exists t', p = Py.rstrip ":/children/" s +:+ t')
  /\ Sample.folder
     = "https://graph.microsoft.com/v1.0/sites/contoso/drive/root:/archive" +:+ ":/children"
  /\ Py.removesuffix ":/children" Sample.folder
     = "https://graph.microsoft.com/v1.0/sites/contoso/drive/root:/archive"
  /\ Py.rstrip ":/children/" Sample.folder
     = "https://graph.microsoft.com/v1.0/sites/contoso/drive/root:/archiv"
  /\ Py.rstrip ":/children/" Sample.folder <> Py.removesuffix ":/children" Sample.folder
  /\ exists log,
       Main.manage_spo (Sample.site Sample.six (fun _ => 202) (fun _ => 204) 25000000)
         2 Sample.archive_path "repo.zip" [] = (Ret tt, log)
       /\ filter is_get log
          = [query_call Sample.tok
               "https://graph.microsoft.com/v1.0/sites/contoso/drive/root:/archiv";
             query_call Sample.tok Sample.folder].
Proof.
  split.
  { intros s. destruct (rstrip_split ":/children/" s) as (tail & Hs & Htail).
    exists tail. split; [done|]. split; [done|].
    intros p t. apply rstrip_maximal. }
  split; [reflexivity|]. split; [reflexivity|]. split; [reflexivity|].
  split; [vm_compute; discriminate|].
  eexists. split; vm_compute; reflexivity.
Qed.


(** * Further properties *)

(** ** Authentication *)

(** The client [connect_graph] builds, and its two calls. *)
Lemma connect_graph_run E (self : SpoController) (w : world) :
  let self1 := Spo.initialize_client self in
  let app := mk_msal_client (client_id self) (authority self) (secret self) in
  let silent := AcquireTokenSilent app (scope self) in
  let exchange := AcquireTokenForClient app (scope self) in
  Spo.connect_graph E self w
  = if Spo.truthy_dict (msal_reply E w silent)
    then (Ret (Spo.set_graph_token self1 (default ∅ (msal_reply E w silent))),
          w ++ [silent])
    else (Ret (match msal_reply E (w ++ [silent]) exchange with
               | Some tok =>
                   if bool_decide (is_Some (tok !! "error")) then self1
                   else Spo.set_graph_token self1 tok
               | None => self1
               end),
          w ++ [silent; exchange]).
Proof.
  intros self1 app silent exchange. unfold Spo.connect_graph. simpl.
  step_bind. unfold Spo.msal_call at 1. fold app silent.
  destruct (Spo.truthy_dict (msal_reply E w silent)); [done|].
  step_bind. unfold Spo.msal_call. fold exchange. rewrite <- app_assoc. simpl.
  destruct (msal_reply E (w ++ [silent]) exchange) as [tok|]; [|done].
  by case_bool_decide.
Qed.

(** X1.  A token found in the cache is taken as it is: the exchange with the
    identity provider is not made, and the dictionary is stored whatever its
    members. *)
Theorem connect_graph_cached_token E (self : SpoController) (w : world)
    (tok : gmap string string) :
  let app := mk_msal_client (client_id self) (authority self) (secret self) in
  msal_reply E w (AcquireTokenSilent app (scope self)) = Some tok ->
  tok <> ∅ ->
  Spo.connect_graph E self w
  = (Ret (Spo.set_graph_token (Spo.initialize_client self) tok),
     w ++ [AcquireTokenSilent app (scope self)]).
Proof.
  intros app Hsilent Hne. rewrite connect_graph_run. fold app. rewrite Hsilent.
  simpl. by rewrite bool_decide_eq_false_2.
Qed.

Lemma connect_graph_cached_token_witness :
  Spo.connect_graph Scenario.site_cached (Spo.init Scenario.site_cached) []
  = (Ret Sample.spo,
     [] ++ [AcquireTokenSilent
              (mk_msal_client "0f1e2d3c" "https://login.microsoftonline.com/contoso"
                 "s3cret")
              ["https://graph.microsoft.com/.default"]]).
Proof.
  apply (connect_graph_cached_token Scenario.site_cached
           (Spo.init Scenario.site_cached) [] Sample.token).
  - reflexivity.
  - vm_compute. discriminate.
Defined.

(** X2.  [connect_graph] returns whatever the identity provider replies; it
    talks to the identity provider only, at most twice; and of the controller
    it changes nothing but the client and, possibly, the token. *)
Theorem connect_graph_keeps_configuration E (self : SpoController) (w : world) :
  exists self' calls,
    Spo.connect_graph E self w = (Ret self', w ++ calls)
    /\ forallb is_msal calls = true
    /\ (1 <= length calls <= 2)%nat
    /\ authority self' = authority self
    /\ endpoint self' = endpoint self
    /\ scope self' = scope self
    /\ client_id self' = client_id self
    /\ secret self' = secret self
    /\ client self'
       = Some (mk_msal_client (client_id self) (authority self) (secret self)).
Proof.
  rewrite connect_graph_run.
  destruct (Spo.truthy_dict _).
  - eexists _, _. split; [done|]. simpl. repeat split; lia.
  - eexists _, _. split; [done|].
    destruct (msal_reply E _ _) as [tok|]; [case_bool_decide|];
      simpl; repeat split; lia.
Qed.

(** [manage_spo] past the check of the settings, which always passes. *)
Lemma manage_spo_validated E (fuel : nat) (path name : string) :
  Main.manage_spo E fuel path name
  = (spo ← Spo.connect_graph E (Spo.init E);
     if negb (Spo.check_token spo) then mret tt
     else
       dir_id ← Spo.get_dir_id E spo (Py.rstrip ":/children/" (endpoint spo));
       if Py.not_str dir_id then mret tt
       else
         upload_status ← Spo.upload_file E spo dir_id path name;
         if upload_status : bool then Spo.cleanup_files E fuel spo
         else mret tt).
Proof. reflexivity. Qed.

(** X3.  With nothing in the cache, an exchange that comes back empty-handed
    (nothing, an error, or a dictionary without [access_token]) ends the
    pipeline after these two calls: no request is sent to the remote side. *)
Theorem manage_spo_stops_without_token E (fuel : nat) (path name : string) (w : world) :
  let app := mk_msal_client (client_id (Spo.init E)) (authority (Spo.init E))
               (secret (Spo.init E)) in
  let silent := AcquireTokenSilent app (scope (Spo.init E)) in
  let exchange := AcquireTokenForClient app (scope (Spo.init E)) in
  Spo.truthy_dict (msal_reply E w silent) = false ->
  (forall tok, msal_reply E (w ++ [silent]) exchange = Some tok ->
     is_Some (tok !! "error") \/ tok !! "access_token" = None) ->
  Main.manage_spo E fuel path name w = (Ret tt, w ++ [silent; exchange]).
Proof.
  intros app silent exchange Hsilent Hexchange.
  rewrite manage_spo_validated.
  step_bind. rewrite connect_graph_run. fold app silent exchange. rewrite Hsilent.
  destruct (msal_reply E (w ++ [silent]) exchange) as [tok|] eqn:Hreply.
  - destruct (Hexchange tok eq_refl) as [Herr|Hnone].
    + by rewrite bool_decide_eq_true_2.
    + case_bool_decide; [done|].
      unfold Spo.check_token. simpl. by rewrite Hnone.
  - done.
Qed.

Lemma manage_spo_stops_without_token_witness :
  exists app scopes,
    Main.manage_spo Sample.site_without_secret 5 Sample.archive_path "repo.zip" []
    = (Ret tt, [] ++ [AcquireTokenSilent app scopes; AcquireTokenForClient app scopes]).
Proof.
  eexists _, _.
  apply (manage_spo_stops_without_token Sample.site_without_secret 5
           Sample.archive_path "repo.zip" []).
  - reflexivity.
  - intros tok Htok. left. vm_compute in Htok. injection Htok as <-.
    vm_compute. eexists. reflexivity.
Defined.

(** X4.  A controller without the key [access_token] in its token cannot
    make a request: every remote operation raises [KeyError] before its
    call, and the log stays as it was. *)
Theorem no_token_no_call E (lower : string -> string) (self : SpoController)
    (w : world) :
  Spo.check_token self = false ->
  (forall url, Spo.query_graph E self url w = (Raise (KeyError "access_token"), w))
  /\ (forall directory,
        Spo.get_dir_id E self directory w = (Raise (KeyError "access_token"), w))
  /\ (forall dir_id file_name,
        Spo._get_upload_url E self dir_id file_name w
        = (Raise (KeyError "access_token"), w))
  /\ (forall dir_id file_path file_name,
        Spo.upload_file E self dir_id file_path file_name w
        = (Raise (KeyError "access_token"), w))
  /\ (forall item_id,
        Spo._delete_file E self item_id w = (Raise (KeyError "access_token"), w))
  /\ (forall fuel,
        Spo.cleanup_files E fuel self w = (Raise (KeyError "access_token"), w))
  /\ (forall name endpoint_arg,
        Dirs.check_dir E lower self name endpoint_arg w
        = (Raise (KeyError "access_token"), w))
  /\ (forall name endpoint_arg,
        Dirs.create_dir E self name endpoint_arg w
        = (Raise (KeyError "access_token"), w)).
Proof.
  unfold Spo.check_token. intros Hno%bool_decide_eq_false.
  assert (Hnone : graph_token self !! "access_token" = None).
  { destruct (graph_token self !! "access_token") eqn:H; [|done].
    exfalso. apply Hno. by eexists. }
  assert (Hq : forall url,
            Spo.query_graph E self url w = (Raise (KeyError "access_token"), w)).
  { intros url. unfold Spo.query_graph, Spo.bearer, mbind, IO_bind, io_bind.
    by rewrite Hnone. }
  assert (Hu : forall dir_id file_name,
            Spo._get_upload_url E self dir_id file_name w
            = (Raise (KeyError "access_token"), w)).
  { intros. unfold Spo._get_upload_url, Spo.bearer, mbind, IO_bind, io_bind.
    by rewrite Hnone. }
  split; [exact Hq|].
  split; [intros; unfold Spo.get_dir_id; step_bind; by rewrite Hq|].
  split; [exact Hu|].
  split; [intros; unfold Spo.upload_file; step_bind; by rewrite Hu|].
  split.
  { intros. unfold Spo._delete_file, Spo.bearer, mbind, IO_bind, io_bind.
    by rewrite Hnone. }
  split; [intros; unfold Spo.cleanup_files; step_bind; by rewrite Hq|].
  split; [intros; unfold Dirs.check_dir; step_bind; by rewrite Hq|].
  intros. unfold Dirs.create_dir, Spo.bearer, mbind, IO_bind, io_bind.
  by rewrite Hnone.
Qed.

Lemma no_token_no_call_witness :
  Spo.check_token (Spo.init Sample.site_without_secret) = false
  /\ Spo.cleanup_files Sample.site_without_secret 5
       (Spo.init Sample.site_without_secret) []
     = (Raise (KeyError "access_token"), []).
Proof.
  assert (H : Spo.check_token (Spo.init Sample.site_without_secret) = false)
    by reflexivity.
  split; [exact H|].
  apply (no_token_no_call Sample.site_without_secret Scenario.lower
           (Spo.init Sample.site_without_secret) [] H).
Defined.

(** ** The directory lookup *)

(** [get_dir_id], for a controller with a token: one query, and the [id] of
    its reply, the empty string when the status is not 200 or the body has
    no [id]. *)
Lemma get_dir_id_run E (self : SpoController) (tok : string)
    (directory : string) (w : world) :
  graph_token self !! "access_token" = Some tok ->
  let q := query_call tok (if Py.not_str directory then endpoint self else directory) in
  Spo.get_dir_id E self directory w
  = (if status_code (http_reply E w q) =? 200
     then match json (http_reply E w q) with
          | Some body => Ret (Py.get_str (members body) "id")
          | None => Raise JSONDecodeError
          end
     else Ret "",
     w ++ [q]).
Proof.
  intros Htok q. unfold Spo.get_dir_id. step_bind.
  rewrite (query_graph_run E self tok Htok). fold q.
  destruct (status_code (http_reply E w q) =? 200).
  - by destruct (json _).
  - unfold mret, IO_ret, io_ret, Py.get_str. simpl.
    by rewrite lookup_insert_ne, lookup_singleton_ne.
Qed.

(** X5.  The lookup of the directory is a gate.  If it is answered with a
    status other than 200, whatever the body, or with a body that has no
    [id], the pipeline ends there, in the ordinary way: after the query no
    session is asked for, no chunk is sent, nothing is deleted.  The URL is
    the stripped endpoint, or the endpoint itself when stripping leaves
    nothing. *)
Theorem manage_spo_stops_without_directory E (fuel : nat) (path name : string)
    (w w1 : world) (spo : SpoController) (tok : string) :
  Spo.connect_graph E (Spo.init E) w = (Ret spo, w1) ->
  graph_token spo !! "access_token" = Some tok ->
  let stripped := Py.rstrip ":/children/" (endpoint spo) in
  let q := query_call tok (if Py.not_str stripped then endpoint spo else stripped) in
  status_code (http_reply E w1 q) <> 200
  \/ (exists body, json (http_reply E w1 q) = Some body
                   /\ Py.get_str (members body) "id" = "") ->
  Main.manage_spo E fuel path name w = (Ret tt, w1 ++ [q]).
Proof.
  intros Hconnect Htok stripped q Hreply.
  rewrite manage_spo_validated. step_bind. rewrite Hconnect.
  assert (Spo.check_token spo = true) as ->.
  { unfold Spo.check_token. apply bool_decide_eq_true_2. by eexists. }
  cbn [negb]. step_bind. cbv beta.
  rewrite (get_dir_id_run E spo tok _ _ Htok). fold stripped q.
  destruct (status_code (http_reply E w1 q) =? 200) eqn:Hs.
  - apply Z.eqb_eq in Hs. destruct Hreply as [|(body & Hbody & Hid)]; [done|].
    rewrite Hbody, Hid. done.
  - done.
Qed.

Lemma manage_spo_stops_without_directory_witness :
  Main.manage_spo Scenario.site_not_found 5 Sample.archive_path "repo.zip" []
  = (Ret tt,
     [AcquireTokenSilent
        (mk_msal_client "0f1e2d3c" "https://login.microsoftonline.com/contoso" "s3cret")
        ["https://graph.microsoft.com/.default"];
      AcquireTokenForClient
        (mk_msal_client "0f1e2d3c" "https://login.microsoftonline.com/contoso" "s3cret")
        ["https://graph.microsoft.com/.default"]]
     ++ [query_call Sample.tok
           "https://graph.microsoft.com/v1.0/sites/contoso/drive/root:/archiv"]).
Proof.
  apply (manage_spo_stops_without_directory Scenario.site_not_found 5
           Sample.archive_path "repo.zip" [] _ Sample.spo Sample.tok).
  - vm_compute. reflexivity.
  - reflexivity.
  - left. vm_compute. discriminate.
Defined.

(** ** More on the chunked transfer *)

Section TransferMore.

Variable E : environment.
Variables (url : string) (f : file).

Local Abbreviation total := (Z.of_N (st_size f)).

(** Whatever the replies, the calls of the loop are the first few of the
    calls it makes when nothing is rejected; it reports success after all of
    them, failure after fewer or after a last one that was rejected. *)
Lemma chunk_loop_prefix (nums : list Z) (q : Z) (w : world) :
  exists (res : outcome bool) (k : nat),
    Spo.chunk_loop E url f total nums q q w
    = (res, w ++ take k (puts_from url total (length nums) q))
    /\ (k <= length nums)%nat
    /\ (res = Ret true /\ k = length nums \/ res = Ret false /\ (1 <= k)%nat).
Proof.
  revert q w. induction nums as [|num rest IH]; intros q w.
  - exists (Ret true), 0%nat. simpl. rewrite app_nil_r. split; [done|]. split; [lia|by left].
  - rewrite chunk_loop_step. cbv zeta.
    set (got := Z.min _ _). set (c0 := Put _ _ _ _).
    destruct (accepted (http_reply E w c0)).
    + destruct (IH (q + got) (w ++ [c0])) as (res & k & -> & Hk & Hres).
      exists res, (S k). simpl. rewrite <- app_assoc. split; [done|].
      split; [lia|]. destruct Hres as [[-> ->]|[-> ?]]; [by left|right; split; [done|lia]].
    + exists (Ret false), 1%nat. simpl. rewrite take_0.
      split; [done|]. split; [lia|right; split; [done|lia]].
Qed.

End TransferMore.

(** The bytes of the calls of an accepted transfer from position [q] on. *)
Lemma bytes_sent_puts_from (f : file) url (n : nat) (q : Z) :
  0 <= q <= Z.of_N (st_size f) ->
  bytes_sent f (puts_from url (Z.of_N (st_size f)) n q)
  = byte_at f <$> seqZ q (Z.min (q + Z.of_nat n * CHUNK_SIZE) (Z.of_N (st_size f)) - q).
Proof.
  revert q. induction n as [|n IH]; intros q Hq.
  - unfold bytes_sent. simpl. rewrite seqZ_nil by lia. done.
  - unfold bytes_sent in *. cbn [puts_from omap list_omap put_at put_data fmap list_fmap concat].
    rewrite IH by (unfold CHUNK_SIZE; lia).
    unfold Spo.chunk_bytes. cbn [chunk_offset chunk_len].
    rewrite <- fmap_app. f_equal.
    set (got := Z.min CHUNK_SIZE (Z.max 0 (Z.of_N (st_size f) - q))).
    rewrite <- seqZ_app by (unfold got, CHUNK_SIZE; lia).
    f_equal. unfold got, CHUNK_SIZE. lia.
Qed.

(** X6.  A transfer in which nothing is rejected sends every byte of the
    file once, in order: the chunks put end to end are the file.  Each call
    declares as its length the number of bytes it carries, which is also the
    length of the range it announces, and the lengths add up to the length of
    the file. *)
Theorem transfer_sends_the_file E (url path : string) (f : file) (w : world) :
  files E path = Some f ->
  accepts_chunks E ->
  exists puts,
    Spo._manage_file_chunks E url path w = (Ret true, w ++ puts)
    /\ bytes_sent f puts = file_bytes f
    /\ Forall (fun c => exists n r d,
                 c = Put url n r d
                 /\ n = chunk_len d
                 /\ Z.of_nat (length (Spo.chunk_bytes f d)) = n
                 /\ range_start r = chunk_offset d
                 /\ range_end r - range_start r + 1 = n
                 /\ range_total r = Z.of_N (st_size f)) puts
    /\ Z.of_nat (length (bytes_sent f puts)) = Z.of_N (st_size f).
Proof.
  intros Hf Hacc.
  destruct (chunks_count f) as (HL & Hn & _ & _ & Hq).
  eexists. split; [by apply manage_file_chunks_accepted|].
  set (L := Z.of_N (st_size f)) in *.
  set (n := Z.to_nat (Py.int_truediv L CHUNK_SIZE + 1)).
  assert (Hn' : L / CHUNK_SIZE + 1 <= Z.of_nat n) by (unfold n; lia).
  clearbody n. clear Hn.
  assert (Hdiv := Z.div_mod L CHUNK_SIZE).
  assert (Hmod := Z.mod_pos_bound L CHUNK_SIZE).
  assert (Hall : bytes_sent f (puts_from url L n 0) = file_bytes f).
  { unfold L. rewrite bytes_sent_puts_from by (fold L; lia). unfold file_bytes.
    do 2 f_equal. fold L. unfold CHUNK_SIZE in *. lia. }
  split; [exact Hall|]. split.
  - generalize 0. generalize n. clear. intros n.
    induction n as [|n IH]; intros q; simpl; constructor; [|apply IH].
    eexists _, _, _. split; [reflexivity|]. simpl.
    unfold Spo.chunk_bytes. rewrite length_fmap, length_seqZ. simpl.
    unfold CHUNK_SIZE. repeat split; lia.
  - rewrite Hall. unfold file_bytes. rewrite length_fmap, length_seqZ. lia.
Qed.

Lemma transfer_sends_the_file_witness :
  exists puts,
    Spo._manage_file_chunks
      (Sample.site Sample.six (fun _ => 202) (fun _ => 204) 25000000)
      Sample.upload_url Sample.archive_path [] = (Ret true, [] ++ puts)
    /\ bytes_sent (Sample.archive 25000000) puts = file_bytes (Sample.archive 25000000).
Proof.
  destruct (transfer_sends_the_file
              (Sample.site Sample.six (fun _ => 202) (fun _ => 204) 25000000)
              Sample.upload_url Sample.archive_path (Sample.archive 25000000) [])
    as (puts & Hrun & Hbytes & _).
  - reflexivity.
  - intros w url n r d. reflexivity.
  - exists puts. split; [exact Hrun|exact Hbytes].
Defined.

Lemma put_ranges_sublist (w1 w2 : world) :
  w1 `sublist_of` w2 -> put_ranges w1 `sublist_of` put_ranges w2.
Proof.
  induction 1 as [|c w1 w2 _ IH|c w1 w2 _ IH]; simpl.
  - constructor.
  - destruct c; simpl; try done. by constructor.
  - destruct c; simpl; try done. by constructor.
Qed.

(** The ranges of an accepted transfer are all different. *)
Lemma put_ranges_NoDup url (f : file) :
  NoDup (put_ranges (puts_from url (Z.of_N (st_size f))
                       (Z.to_nat (Py.int_truediv (Z.of_N (st_size f)) CHUNK_SIZE + 1)) 0)).
Proof.
  destruct (chunks_count f) as (HL & Hn & Hz & _ & Hq).
  set (L := Z.of_N (st_size f)) in *.
  set (n := Z.to_nat (Py.int_truediv L CHUNK_SIZE + 1)).
  assert (Hn' : Z.of_nat n <= L / CHUNK_SIZE + 2) by (unfold n; lia).
  assert (Hz' : L mod CHUNK_SIZE = 0 -> Z.of_nat n = L / CHUNK_SIZE + 1)
    by (intros Hm; unfold n; rewrite (Hz Hm); lia).
  clearbody n. clear Hn Hz.
  assert (Hdiv := Z.div_mod L CHUNK_SIZE).
  assert (Hmod := Z.mod_pos_bound L CHUNK_SIZE).
  apply NoDup_alt. intros i j r Hi Hj.
  assert (i < n)%nat by (apply lookup_lt_Some in Hi; by rewrite put_ranges_length in Hi).
  assert (j < n)%nat by (apply lookup_lt_Some in Hj; by rewrite put_ranges_length in Hj).
  rewrite put_ranges_lookup in Hi, Hj by lia.
  injection Hi as <-. injection Hj as Hj _.
  unfold CHUNK_SIZE in *.
  destruct (Z.eq_dec (L mod 10485760) 0) as [Hm|Hm]; [specialize (Hz' Hm)|]; lia.
Qed.

(** [_manage_file_chunks] on a file that is there: the calls are the first
    [k] of the accepted transfer. *)
Lemma transfer_calls_prefix_aux E (url path : string) (f : file) (w : world) :
  files E path = Some f ->
  let n := Z.to_nat (Py.int_truediv (Z.of_N (st_size f)) CHUNK_SIZE + 1) in
  exists (res : outcome bool) (k : nat),
    Spo._manage_file_chunks E url path w
    = (res, w ++ take k (puts_from url (Z.of_N (st_size f)) n 0))
    /\ (1 <= k <= n)%nat
    /\ (res = Ret true /\ k = n \/ res = Ret false).
Proof.
  intros Hf n.
  destruct (chunks_count f) as (_ & Hquot & _ & _ & Hpos).
  unfold Spo._manage_file_chunks, mbind, IO_bind, io_bind.
  rewrite Hf. cbn [or_raise mret IO_ret io_ret].
  destruct (chunk_loop_prefix E url f
              (Py.range (Py.int_truediv (Z.of_N (st_size f)) CHUNK_SIZE + 1)) 0 w)
    as (res & k & Hrun & Hk & Hres).
  assert (Hlen : length (Py.range (Py.int_truediv (Z.of_N (st_size f)) CHUNK_SIZE + 1)) = n).
  { unfold Py.range. by rewrite length_seqZ. }
  rewrite Hlen in *.
  exists res, k. split; [exact Hrun|].
  assert (1 <= n)%nat by (unfold n; lia).
  split; [destruct Hres as [[_ ->]|[_ ?]]; lia|].
  destruct Hres as [[-> ->]|[-> _]]; [by left|by right].
Qed.

(** X7.  Whatever the replies, the calls of a transfer are the first few of
    the calls of the transfer in which nothing is rejected: at least one, at
    most [int(L / CHUNK_SIZE) + 1], all of them PUTs to the given URL, no
    range announced twice.  Once the file is found the transfer raises nothing of its
    own; it reports success only after all of the calls. *)
Theorem transfer_calls_prefix E (url path : string) (f : file) (w : world) :
  files E path = Some f ->
  let n := Z.to_nat (Py.int_truediv (Z.of_N (st_size f)) CHUNK_SIZE + 1) in
  exists (res : outcome bool) (k : nat),
    Spo._manage_file_chunks E url path w
    = (res, w ++ take k (puts_from url (Z.of_N (st_size f)) n 0))
    /\ (1 <= k <= n)%nat
    /\ (res = Ret true /\ k = n \/ res = Ret false)
    /\ NoDup (put_ranges (take k (puts_from url (Z.of_N (st_size f)) n 0)))
    /\ Forall (fun c => put_url c = Some url)
         (take k (puts_from url (Z.of_N (st_size f)) n 0)).
Proof.
  intros Hf n.
  destruct (transfer_calls_prefix_aux E url path f w Hf) as (res & k & Hrun & Hk & Hres).
  exists res, k. split; [exact Hrun|]. split; [exact Hk|]. split; [exact Hres|].
  split.
  - apply (sublist_NoDup _ (put_ranges (puts_from url (Z.of_N (st_size f)) n 0))).
    + apply put_ranges_NoDup.
    + apply put_ranges_sublist, sublist_take.
  - apply Forall_take. generalize 0. generalize n. clear. intros n.
    induction n as [|n IH]; intros q; simpl; constructor; [done|apply IH].
Qed.

Lemma transfer_calls_prefix_witness :
  exists (res : outcome bool) (k : nat),
    Spo._manage_file_chunks
      (Sample.site Sample.six (fun n => if Nat.eqb n 1 then 500 else 202)
         (fun _ => 204) 25000000)
      Sample.upload_url Sample.archive_path []
    = (res, [] ++ take k (puts_from Sample.upload_url 25000000 3 0))
    /\ (1 <= k <= 3)%nat.
Proof.
  destruct (transfer_calls_prefix
              (Sample.site Sample.six (fun n => if Nat.eqb n 1 then 500 else 202)
                 (fun _ => 204) 25000000)
              Sample.upload_url Sample.archive_path (Sample.archive 25000000) [])
    as (res & k & Hrun & Hk & _).
  - reflexivity.
  - exists res, k. split; [exact Hrun|exact Hk].
Defined.

(** ** The upload as a whole *)

(** The session request [_get_upload_url] makes. *)
Lemma get_upload_url_run E (self : SpoController) (tok dir_id file_name : string)
    (w : world) :
  graph_token self !! "access_token" = Some tok ->
  exists post,
    is_post post = true
    /\ Spo._get_upload_url E self dir_id file_name w
       = (match json (http_reply E w post) with
          | Some body => Ret (Py.get_str (members body) "uploadUrl")
          | None => Raise JSONDecodeError
          end, w ++ [post]).
Proof.
  intros Htok. eexists. split; [|by apply get_upload_url_ignores_status]. done.
Qed.

(** [upload_file], case by case. *)
Lemma upload_file_run E (self : SpoController) (tok dir_id path name : string)
    (w : world) :
  graph_token self !! "access_token" = Some tok ->
  exists post (res : outcome bool) (puts : list call),
    is_post post = true
    /\ Spo.upload_file E self dir_id path name w = (res, w ++ post :: puts)
    /\ match json (http_reply E w post) with
       | None => res = Raise JSONDecodeError /\ puts = []
       | Some body =>
           let url := Py.get_str (members body) "uploadUrl" in
           if Py.not_str url then res = Ret false /\ puts = []
           else
             match files E path with
             | None => res = Raise FileNotFoundError /\ puts = []
             | Some f =>
                 let n := Z.to_nat (Py.int_truediv (Z.of_N (st_size f)) CHUNK_SIZE + 1) in
                 exists k : nat,
                   puts = take k (puts_from url (Z.of_N (st_size f)) n 0)
                   /\ (1 <= k <= n)%nat
                   /\ (res = Ret true /\ k = n \/ res = Ret false)
             end
       end.
Proof.
  intros Htok.
  destruct (get_upload_url_run E self tok dir_id name w Htok) as (post & Hpost & Hurl).
  unfold Spo.upload_file. step_bind. rewrite Hurl.
  destruct (json (http_reply E w post)) as [body|] eqn:Hj.
  2:{ exists post, (Raise JSONDecodeError), [].
      split; [done|]. split; [done|]. by rewrite Hj. }
  destruct (Py.not_str (Py.get_str (members body) "uploadUrl")) eqn:Hempty.
  { exists post, (Ret false), [].
    split; [done|]. split; [done|]. rewrite Hj. cbv zeta. by rewrite Hempty. }
  destruct (files E path) as [f|] eqn:Hf.
  - destruct (transfer_calls_prefix_aux E (Py.get_str (members body) "uploadUrl")
                path f (w ++ [post]) Hf) as (res & k & Hrun & Hk & Hres).
    exists post, res, (take k (puts_from (Py.get_str (members body) "uploadUrl")
                                 (Z.of_N (st_size f))
                                 (Z.to_nat
                                    (Py.int_truediv (Z.of_N (st_size f)) CHUNK_SIZE + 1)) 0)).
    split; [done|]. split; [by rewrite Hrun, <- app_assoc|].
    rewrite Hj. cbv zeta. rewrite Hempty. by exists k.
  - exists post, (Raise FileNotFoundError), []. split; [done|]. split.
    + unfold Spo._manage_file_chunks, mbind, IO_bind, io_bind. by rewrite Hf.
    + rewrite Hj. cbv zeta. by rewrite Hempty.
Qed.

(** X8.  [upload_file] asks for the session first, in one POST, and sends
    every chunk to the URL which the reply to that request names, to no
    other.  It reports success only if that URL is not empty, the archive is
    there, and all of its [int(L / CHUNK_SIZE) + 1] chunks have been sent; a
    reply without an [uploadUrl] means failure without a single chunk. *)
Theorem upload_file_follows_session E (self : SpoController)
    (tok dir_id path name : string) (w : world) :
  graph_token self !! "access_token" = Some tok ->
  exists post (res : outcome bool) (puts : list call),
    Spo.upload_file E self dir_id path name w = (res, w ++ post :: puts)
    /\ is_post post = true
    /\ forallb is_put puts = true
    /\ (forall c, c ∈ puts ->
          exists body,
            json (http_reply E w post) = Some body
            /\ put_url c = Some (Py.get_str (members body) "uploadUrl"))
    /\ (res = Ret true ->
          exists body f,
            json (http_reply E w post) = Some body
            /\ Py.get_str (members body) "uploadUrl" <> ""
            /\ files E path = Some f
            /\ puts = puts_from (Py.get_str (members body) "uploadUrl")
                        (Z.of_N (st_size f))
                        (Z.to_nat (Py.int_truediv (Z.of_N (st_size f)) CHUNK_SIZE + 1)) 0)
    /\ ((forall body, json (http_reply E w post) = Some body ->
                      Py.get_str (members body) "uploadUrl" = "") ->
        puts = [] /\ res <> Ret true).
Proof.
  intros Htok.
  destruct (upload_file_run E self tok dir_id path name w Htok)
    as (post & res & puts & Hpost & Hrun & Hcases).
  exists post, res, puts. split; [done|]. split; [done|].
  assert (Hnone : forall r : outcome bool, r <> Ret true ->
            forallb is_put [] = true
            /\ (forall c, c ∈ @nil call ->
                  exists body,
                    json (http_reply E w post) = Some body
                    /\ put_url c = Some (Py.get_str (members body) "uploadUrl"))
            /\ (r = Ret true ->
                  exists body f,
                    json (http_reply E w post) = Some body
                    /\ Py.get_str (members body) "uploadUrl" <> ""
                    /\ files E path = Some f
                    /\ [] = puts_from (Py.get_str (members body) "uploadUrl")
                              (Z.of_N (st_size f))
                              (Z.to_nat (Py.int_truediv (Z.of_N (st_size f)) CHUNK_SIZE + 1)) 0)
            /\ ((forall body, json (http_reply E w post) = Some body ->
                              Py.get_str (members body) "uploadUrl" = "") ->
                [] = @nil call /\ r <> Ret true)).
  { intros r Hr. split; [done|]. split; [intros c Hc; by apply elem_of_nil in Hc|].
    split; [done|]. by intros _. }
  destruct (json (http_reply E w post)) as [body|] eqn:Hj.
  2:{ destruct Hcases as [-> ->]. by apply Hnone. }
  cbv zeta in Hcases.
  destruct (Py.not_str (Py.get_str (members body) "uploadUrl")) eqn:Hempty.
  { destruct Hcases as [-> ->]. by apply Hnone. }
  assert (Hurl : Py.get_str (members body) "uploadUrl" <> "").
  { intros Heq. by rewrite Heq in Hempty. }
  destruct (files E path) as [f|] eqn:Hf.
  2:{ destruct Hcases as [-> ->]. by apply Hnone. }
  destruct Hcases as (k & -> & Hk & Hres).
  assert (Hall : forall n q,
            Forall (fun c => is_put c = true
                             /\ put_url c = Some (Py.get_str (members body) "uploadUrl"))
              (puts_from (Py.get_str (members body) "uploadUrl") (Z.of_N (st_size f)) n q)).
  { induction n as [|n IH]; intros q; simpl; constructor; [done|apply IH]. }
  assert (Htake : Forall (fun c => is_put c = true
                             /\ put_url c = Some (Py.get_str (members body) "uploadUrl"))
            (take k (puts_from (Py.get_str (members body) "uploadUrl")
                       (Z.of_N (st_size f))
                       (Z.to_nat (Py.int_truediv (Z.of_N (st_size f)) CHUNK_SIZE + 1)) 0)))
    by apply Forall_take, Hall.
  rewrite Forall_forall in Htake.
  split.
  { apply forallb_forall. intros c Hc%list_elem_of_In. by destruct (Htake c Hc). }
  split.
  { intros c Hc. exists body. split; [done|]. by destruct (Htake c Hc). }
  split.
  - intros ->. destruct Hres as [[_ ->]|?]; [|done].
    exists body, f. split; [done|]. split; [done|]. split; [done|].
    by rewrite firstn_all2 by (rewrite puts_from_length; lia).
  - intros H. by specialize (H body eq_refl).
Qed.

Lemma upload_file_follows_session_witness :
  exists post puts,
    Spo.upload_file (Sample.site Sample.six (fun _ => 202) (fun _ => 204) 25000000)
      Sample.spo "01FOLDER" Sample.archive_path "repo.zip" []
    = (Ret true, [] ++ post :: puts)
    /\ puts = puts_from Sample.upload_url 25000000 3 0.
Proof.
  destruct (upload_file_follows_session
              (Sample.site Sample.six (fun _ => 202) (fun _ => 204) 25000000)
              Sample.spo Sample.tok "01FOLDER" Sample.archive_path "repo.zip" [])
    as (post & res & puts & Hrun & _ & _ & _ & Hall & _).
  - reflexivity.
  - assert (Hres : res = Ret true).
    { apply (f_equal fst) in Hrun. simpl in Hrun. rewrite <- Hrun.
      vm_compute. reflexivity. }
    subst res. exists post, puts. split; [exact Hrun|].
    destruct (Hall eq_refl) as (body & f & Hbody & _ & Hf & ->).
    assert (Hpost : post = Sample.session_call).
    { apply (f_equal snd) in Hrun. simpl in Hrun.
      apply (f_equal head) in Hrun. vm_compute in Hrun. by injection Hrun as <-. }
    subst post. vm_compute in Hbody. injection Hbody as <-.
    vm_compute in Hf. injection Hf as <-. reflexivity.
Defined.

(** ** More on the retention loop *)

Lemma list_remove_sublist (x : item) (l l' : list item) :
  Spo.list_remove x l = Some l' -> l' `sublist_of` l.
Proof.
  revert l'. induction l as [|y l IH]; intros l'; simpl; [done|].
  case_bool_decide.
  - intros [= ->]. by constructor.
  - destruct (Spo.list_remove x l) as [l0|]; simpl; [|done].
    intros [= <-]. constructor. by apply IH.
Qed.

(** Beyond the bound, a controller without a token, or a day without a
    namesake next year, makes the loop end before its first call, and not by
    returning. *)
Lemma cleanup_loop_stuck E (fuel : nat) (self : SpoController) (now : datetime)
    (l : list item) (fn oid : string) (w : world) :
  graph_token self !! "access_token" = None
  \/ Datetime.new (year now + 1) (month now) (day now) = None ->
  MAX_BACKUPS < Z.of_nat (length l) ->
  exists res,
    Spo.cleanup_loop E fuel self now l fn oid w = (res, w)
    /\ forall rest, res <> Ret rest.
Proof.
  intros Hno Hbig. apply Z.ltb_lt in Hbig.
  destruct fuel as [|fuel]; simpl; rewrite Hbig; simpl.
  { by exists Spin. }
  step_bind.
  destruct (Datetime.new _ _ _) as [limit|] eqn:Hlimit; simpl; [|by eexists].
  destruct Hno as [Hno|]; [|done].
  destruct (Spo.scan E l (limit, fn, oid)) as [[? ?] oid'].
  step_bind.
  unfold Spo._delete_file, Spo.bearer, mbind, IO_bind, io_bind. rewrite Hno.
  by eexists.
Qed.

Section LoopMore.

Variable E : environment.
Variables (self : SpoController) (tok : string) (now limit : datetime).
Hypothesis Htok : graph_token self !! "access_token" = Some tok.
Hypothesis Hlimit : Datetime.new (year now + 1) (month now) (day now) = Some limit.

(** What the loop keeps to, whatever the listing and the replies. *)
Lemma cleanup_loop_invariant (fuel : nat) :
  forall (l : list item) (fn oid : string) (w : world),
  exists (res : outcome (list item)) (calls : list call),
    Spo.cleanup_loop E fuel self now l fn oid w = (res, w ++ calls)
    /\ Forall (fun c => exists item_id, c = delete_call self tok item_id) calls
    /\ (forall rest, res = Ret rest ->
          rest `sublist_of` l
          /\ (MAX_BACKUPS < Z.of_nat (length l) -> MAX_BACKUPS <= Z.of_nat (length rest))
          /\ (length l <= length rest + length calls)%nat)
    /\ (Z.of_nat (length l) <= MAX_BACKUPS -> res = Ret l /\ calls = []).
Proof.
  induction fuel as [|fuel IH]; intros l fn oid w.
  { destruct (Z.ltb MAX_BACKUPS (Z.of_nat (length l))) eqn:Hc.
    - exists Spin, []. simpl. rewrite Hc. simpl. rewrite app_nil_r.
      apply Z.ltb_lt in Hc. split; [done|]. split; [done|]. split; [done|]. lia.
    - apply Z.ltb_ge in Hc. exists (Ret l), [].
      rewrite cleanup_loop_within, app_nil_r by done.
      split; [done|]. split; [done|]. split; [|done].
      intros rest [= <-]. split; [done|]. split; lia. }
  destruct (Z.ltb MAX_BACKUPS (Z.of_nat (length l))) eqn:Hc.
  2:{ apply Z.ltb_ge in Hc. exists (Ret l), [].
      rewrite cleanup_loop_within, app_nil_r by done.
      split; [done|]. split; [done|]. split; [|done].
      intros rest [= <-]. split; [done|]. split; lia. }
  apply Z.ltb_lt in Hc.
  destruct (Spo.scan E l (limit, fn, oid)) as [[t' fn'] oid'] eqn:Hscan.
  rewrite (cleanup_loop_pass E self tok now limit Htok Hlimit _ _ _ _ _ _ _ _ Hc Hscan).
  simpl. set (c0 := delete_call self tok oid').
  (* the loop ends after this call, and not by returning a listing *)
  assert (Hstop : forall res : outcome (list item),
            (forall rest, res = Ret rest -> rest = l) ->
            exists res' calls,
              (res, w ++ [c0]) = (res', w ++ calls)
              /\ Forall (fun c => exists item_id, c = delete_call self tok item_id) calls
              /\ (forall rest, res' = Ret rest ->
                    rest `sublist_of` l
                    /\ (MAX_BACKUPS < Z.of_nat (length l) ->
                        MAX_BACKUPS <= Z.of_nat (length rest))
                    /\ (length l <= length rest + length calls)%nat)
              /\ (Z.of_nat (length l) <= MAX_BACKUPS -> res' = Ret l /\ calls = [])).
  { intros res Hres. exists res, [c0]. split; [done|].
    split; [constructor; [by eexists|done]|]. split; [|lia].
    intros rest ->%Hres. split; [done|]. simpl. split; lia. }
  (* the loop goes on with [next] *)
  assert (Hnext : forall next fn1 oid1,
            next `sublist_of` l -> (length l <= S (length next))%nat ->
            exists res calls,
              Spo.cleanup_loop E fuel self now next fn1 oid1 (w ++ [c0]) = (res, w ++ calls)
              /\ Forall (fun c => exists item_id, c = delete_call self tok item_id) calls
              /\ (forall rest, res = Ret rest ->
                    rest `sublist_of` l
                    /\ (MAX_BACKUPS < Z.of_nat (length l) ->
                        MAX_BACKUPS <= Z.of_nat (length rest))
                    /\ (length l <= length rest + length calls)%nat)
              /\ (Z.of_nat (length l) <= MAX_BACKUPS -> res = Ret l /\ calls = [])).
  { intros next fn1 oid1 Hsub Hlen.
    destruct (IH next fn1 oid1 (w ++ [c0])) as (res & calls & Hrun & Hdel & Hret & Hsmall).
    exists res, (c0 :: calls). split; [by rewrite Hrun, <- app_assoc|].
    split; [constructor; [by eexists|done]|]. split; [|lia].
    intros rest Hrest. destruct (Hret rest Hrest) as (Hs & Hb & Hn).
    split; [by etrans|]. simpl. split; [|lia]. intros _.
    destruct (decide (MAX_BACKUPS < Z.of_nat (length next))) as [Hbig|Hsm].
    - by apply Hb.
    - destruct Hsmall as [Hl _]; [lia|]. rewrite Hl in Hrest. injection Hrest as <-. lia. }
  destruct (status_code (http_reply E w c0) =? 204).
  2:{ apply Hstop. by intros rest [= <-]. }
  step_bind.
  pose proof (find_match_log l oid' (w ++ [c0])) as Hlog.
  destruct (Spo.find_match l oid' (w ++ [c0])) as [[found|e|] w1];
    simpl in Hlog; subst w1; [|by apply Hstop..].
  case_bool_decide.
  - apply Hnext; [reflexivity|lia].
  - step_bind. destruct (Spo.list_remove found l) as [l'|] eqn:Hrm; simpl;
      [|by apply Hstop].
    apply Hnext; [by eapply list_remove_sublist|].
    apply list_remove_length in Hrm. lia.
Qed.

End LoopMore.

(** X9.  Whatever the listing, the replies and the fuel: the loop of
    [cleanup_files] makes deletions and nothing else; a listing within the
    bound is returned as it is, without a call; and a listing the loop
    returns is what is left of the one it was given, in the same order, with
    no fewer than [MAX_BACKUPS] entries if that had more, and with no more
    entries gone than deletions were attempted. *)
Theorem retention_keeps_the_bound E (fuel : nat) (self : SpoController)
    (now : datetime) (l : list item) (fn oid : string) (w : world) :
  exists (res : outcome (list item)) (calls : list call),
    Spo.cleanup_loop E fuel self now l fn oid w = (res, w ++ calls)
    /\ forallb is_delete calls = true
    /\ (Z.of_nat (length l) <= MAX_BACKUPS -> res = Ret l /\ calls = [])
    /\ (forall rest, res = Ret rest ->
          rest `sublist_of` l
          /\ Z.min (Z.of_nat (length l)) MAX_BACKUPS <= Z.of_nat (length rest)
          /\ (length l <= length rest + length calls)%nat).
Proof.
  destruct (decide (MAX_BACKUPS < Z.of_nat (length l))) as [Hbig|Hsmall].
  2:{ exists (Ret l), []. rewrite cleanup_loop_within, app_nil_r by lia.
      split; [done|]. split; [done|]. split; [done|].
      intros rest [= <-]. split; [done|]. split; lia. }
  destruct (graph_token self !! "access_token") as [tok|] eqn:Htok.
  2:{ destruct (cleanup_loop_stuck E fuel self now l fn oid w (or_introl Htok) Hbig)
        as (res & Hrun & Hres).
      exists res, []. rewrite app_nil_r. split; [done|]. split; [done|].
      split; [lia|]. intros rest Hrest. by destruct (Hres rest). }
  destruct (Datetime.new (year now + 1) (month now) (day now)) as [limit|] eqn:Hlimit.
  2:{ destruct (cleanup_loop_stuck E fuel self now l fn oid w (or_intror Hlimit) Hbig)
        as (res & Hrun & Hres).
      exists res, []. rewrite app_nil_r. split; [done|]. split; [done|].
      split; [lia|]. intros rest Hrest. by destruct (Hres rest). }
  destruct (cleanup_loop_invariant E self tok now limit Htok Hlimit fuel l fn oid w)
    as (res & calls & Hrun & Hdel & Hret & _).
  exists res, calls. split; [done|]. split.
  { apply forallb_forall. intros c Hc%list_elem_of_In.
    rewrite Forall_forall in Hdel. by destruct (Hdel c Hc) as [? ->]. }
  split; [lia|].
  intros rest Hrest. destruct (Hret rest Hrest) as (Hs & Hb & Hn).
  split; [done|]. split; [|done]. specialize (Hb Hbig). lia.
Qed.

(** The query of [cleanup_files] and the listing its loop starts from. *)
Lemma cleanup_files_listing E (self : SpoController) (tok : string)
    (fuel : nat) (w : world) :
  graph_token self !! "access_token" = Some tok ->
  let q := query_call tok (endpoint self) in
  Spo.cleanup_files E fuel self w
  = if status_code (http_reply E w q) =? 200
    then match json (http_reply E w q) with
         | Some body =>
             forget (Spo.cleanup_loop E fuel self (utcnow E)
                       (default [] (value body)) "" "" (w ++ [q]))
         | None => (Raise JSONDecodeError, w ++ [q])
         end
    else (Ret tt, w ++ [q]).
Proof.
  intros Htok q. unfold Spo.cleanup_files. step_bind.
  rewrite (query_graph_run E self tok Htok).
  assert ((if Py.not_str (endpoint self) then endpoint self else endpoint self)
          = endpoint self) as -> by (by destruct (Py.not_str _)).
  fold q. destruct (status_code (http_reply E w q) =? 200).
  - destruct (json (http_reply E w q)) as [body|]; [|done].
    unfold mbind, IO_bind, io_bind, forget.
    by destruct (Spo.cleanup_loop _ _ _ _ _ _ _ _) as [[?|?|] ?].
  - simpl. unfold mbind, IO_bind, io_bind.
    by rewrite cleanup_loop_within by (unfold MAX_BACKUPS; simpl; lia).
Qed.

(** X10.  [cleanup_files] deletes nothing when there is nothing to go by or
    nothing to do: if the query of the folder is answered with a status other
    than 200, or with a body that has no listing, or with a listing of
    [MAX_BACKUPS] entries or fewer, the query is its only call and it
    returns, whatever the fuel. *)
Theorem cleanup_files_leaves_small_folder E (self : SpoController) (tok : string)
    (fuel : nat) (w : world) :
  graph_token self !! "access_token" = Some tok ->
  let q := query_call tok (endpoint self) in
  status_code (http_reply E w q) <> 200
  \/ (exists body, json (http_reply E w q) = Some body
                   /\ Z.of_nat (length (default [] (value body))) <= MAX_BACKUPS) ->
  Spo.cleanup_files E fuel self w = (Ret tt, w ++ [q]).
Proof.
  intros Htok q Hreply. rewrite (cleanup_files_listing E self tok fuel w Htok). fold q.
  destruct (status_code (http_reply E w q) =? 200) eqn:Hs; [|done].
  apply Z.eqb_eq in Hs. destruct Hreply as [|(body & -> & Hlen)]; [done|].
  by rewrite cleanup_loop_within.
Qed.

Lemma cleanup_files_leaves_small_folder_witness :
  Spo.cleanup_files Scenario.site_dirs 0 Sample.spo []
  = (Ret tt, [] ++ [query_call Sample.tok Sample.folder]).
Proof.
  apply (cleanup_files_leaves_small_folder Scenario.site_dirs Sample.spo Sample.tok 0 []).
  - reflexivity.
  - right. eexists. split; [reflexivity|]. vm_compute. discriminate.
Defined.

(** ** The order of the stages *)

Lemma connect_graph_log E (self : SpoController) (w : world) :
  exists self' auth,
    Spo.connect_graph E self w = (Ret self', w ++ auth)
    /\ forallb is_msal auth = true
    /\ (1 <= length auth <= 2)%nat.
Proof.
  rewrite connect_graph_run. destruct (Spo.truthy_dict _).
  - eexists _, _. split; [done|]. simpl. split; [done|lia].
  - eexists _, _. split; [done|]. simpl. split; [done|lia].
Qed.

(** The loop of [cleanup_files] makes deletions only. *)
Lemma cleanup_loop_only_deletes E (fuel : nat) (self : SpoController) (tok : string)
    (now : datetime) (l : list item) (fn oid : string) (w : world) :
  graph_token self !! "access_token" = Some tok ->
  exists (res : outcome (list item)) (dels : list call),
    Spo.cleanup_loop E fuel self now l fn oid w = (res, w ++ dels)
    /\ forallb is_delete dels = true.
Proof.
  intros Htok.
  destruct (Datetime.new (year now + 1) (month now) (day now)) as [limit|] eqn:Hlimit.
  - destruct (cleanup_loop_invariant E self tok now limit Htok Hlimit fuel l fn oid w)
      as (res & calls & Hrun & Hdel & _).
    exists res, calls. split; [done|].
    apply forallb_forall. intros c Hc%list_elem_of_In.
    rewrite Forall_forall in Hdel. by destruct (Hdel c Hc) as [? ->].
  - pose proof (cleanup_loop_no_call E fuel self now l fn oid w (or_intror Hlimit)) as H.
    destruct (Spo.cleanup_loop E fuel self now l fn oid w) as [res w'].
    simpl in H. subst w'. exists res, []. by rewrite app_nil_r.
Qed.

(** [cleanup_files]: one query, then deletions. *)
Lemma cleanup_files_log E (fuel : nat) (self : SpoController) (tok : string)
    (w : world) :
  graph_token self !! "access_token" = Some tok ->
  exists (res : outcome unit) q (dels : list call),
    Spo.cleanup_files E fuel self w = (res, w ++ q :: dels)
    /\ is_get q = true
    /\ forallb is_delete dels = true.
Proof.
  intros Htok. rewrite (cleanup_files_listing E self tok fuel w Htok).
  set (q := query_call tok (endpoint self)).
  destruct (status_code (http_reply E w q) =? 200); [|by exists (Ret tt), q, []].
  destruct (json (http_reply E w q)) as [body|]; [|by exists (Raise JSONDecodeError), q, []].
  destruct (cleanup_loop_only_deletes E fuel self tok (utcnow E)
              (default [] (value body)) "" "" (w ++ [q]) Htok)
    as (res & dels & -> & Hdels).
  rewrite <- app_assoc. simpl.
  destruct res as [rest|e|]; simpl; by eexists _, q, dels.
Qed.

(** X11.  Whatever the environment, the calls of a run of the pipeline come
    in the order of its stages: the identity provider (at most twice), the
    lookup of the directory (one query), the session request (one POST), the
    chunks, the listing of the folder (one query), the deletions.  No stage
    has a call unless the one before it had; and the folder is listed, and
    anything deleted, only after the whole archive has been sent, every one
    of its chunks. *)
Theorem manage_spo_stages E (fuel : nat) (path name : string) (w : world) :
  exists (res : outcome unit) (auth lookup session puts listing dels : list call),
    Main.manage_spo E fuel path name w
    = (res, w ++ auth ++ lookup ++ session ++ puts ++ listing ++ dels)
    /\ in_stages auth lookup session puts listing dels
    /\ (listing <> [] ->
        exists f url,
          files E path = Some f
          /\ puts = puts_from url (Z.of_N (st_size f))
                      (Z.to_nat (Py.int_truediv (Z.of_N (st_size f)) CHUNK_SIZE + 1)) 0).
Proof.
  rewrite manage_spo_validated. step_bind.
  destruct (connect_graph_log E (Spo.init E) w) as (spo & auth & -> & Hauth & Hlen).
  assert (Hne : auth <> []) by (intros ->; simpl in Hlen; lia).
  destruct (Spo.check_token spo) eqn:Hcheck; cbn [negb].
  2:{ exists (Ret tt), auth, [], [], [], [], []. rewrite !app_nil_r.
      split; [done|]. split; [|done].
      unfold in_stages. simpl. repeat split; try done; lia. }
  unfold Spo.check_token in Hcheck. apply bool_decide_eq_true in Hcheck as [tok Htok].
  step_bind. cbv beta.
  rewrite (get_dir_id_run E spo tok _ _ Htok).
  set (q := query_call tok _).
  assert (Hq : is_get q = true) by done. clearbody q.
  assert (Hlookup : forall res : outcome unit,
            exists res' auth' lookup session puts listing dels,
              (res, (w ++ auth) ++ [q])
              = (res', w ++ auth' ++ lookup ++ session ++ puts ++ listing ++ dels)
              /\ in_stages auth' lookup session puts listing dels
              /\ (listing <> [] ->
                  exists f url,
                    files E path = Some f
                    /\ puts = puts_from url (Z.of_N (st_size f))
                                (Z.to_nat (Py.int_truediv (Z.of_N (st_size f)) CHUNK_SIZE + 1)) 0)).
  { intros res. exists res, auth, [q], [], [], [], [].
    rewrite <- app_assoc. split; [done|]. split; [|done].
    unfold in_stages. simpl. rewrite Hq. repeat split; try done; lia. }
  destruct (if status_code (http_reply E (w ++ auth) q) =? 200
            then match json (http_reply E (w ++ auth) q) with
                 | Some body => Ret (Py.get_str (members body) "id")
                 | None => Raise JSONDecodeError
                 end
            else Ret "") as [dir_id|e|]; [|by apply Hlookup..].
  destruct (Py.not_str dir_id); [by apply Hlookup|].
  step_bind.
  destruct (upload_file_run E spo tok dir_id path name ((w ++ auth) ++ [q]) Htok)
    as (post & up & puts & Hpost & -> & Hcases).
  assert (Hputs : forallb is_put puts = true
                  /\ (up = Ret true ->
                      puts <> []
                      /\ exists f url,
                           files E path = Some f
                           /\ puts = puts_from url (Z.of_N (st_size f))
                                       (Z.to_nat
                                          (Py.int_truediv (Z.of_N (st_size f)) CHUNK_SIZE + 1)) 0)).
  { destruct (json (http_reply E ((w ++ auth) ++ [q]) post)) as [body|];
      [|by destruct Hcases as [-> ->]].
    cbv zeta in Hcases. destruct (Py.not_str _); [by destruct Hcases as [-> ->]|].
    destruct (files E path) as [f|]; [|by destruct Hcases as [-> ->]].
    destruct Hcases as (k & -> & Hk & Hup). split.
    - apply forallb_forall. intros c Hc%list_elem_of_In.
      apply list_elem_of_In, (forallb_forall is_put) in Hc; [done|].
      clear. generalize 0.
      generalize (Z.to_nat (Py.int_truediv (Z.of_N (st_size f)) CHUNK_SIZE + 1)).
      intros n. revert k. induction n as [|n IH]; intros [|k] q; simpl; done.
    - intros ->. destruct Hup as [[_ ->]|?]; [|done].
      rewrite firstn_all2 by (rewrite puts_from_length; lia). split; [|by eexists _, _].
      intros Hnil. apply (f_equal length) in Hnil. rewrite puts_from_length in Hnil.
      simpl in Hnil. lia. }
  destruct Hputs as [Hput Hdone].
  assert (Hupload : forall res : outcome unit,
            exists res' auth' lookup session puts' listing dels,
              (res, ((w ++ auth) ++ [q]) ++ post :: puts)
              = (res', w ++ auth' ++ lookup ++ session ++ puts' ++ listing ++ dels)
              /\ in_stages auth' lookup session puts' listing dels
              /\ (listing <> [] ->
                  exists f url,
                    files E path = Some f
                    /\ puts' = puts_from url (Z.of_N (st_size f))
                                 (Z.to_nat
                                    (Py.int_truediv (Z.of_N (st_size f)) CHUNK_SIZE + 1)) 0)).
  { intros res. exists res, auth, [q], [post], puts, [], [].
    rewrite <- !app_assoc. simpl. rewrite app_nil_r. split; [done|]. split; [|done].
    unfold in_stages. simpl. rewrite Hpost, Hq.
    repeat split; try done; lia. }
  destruct up as [[|]|e|]; [|by apply Hupload..].
  destruct (Hdone eq_refl) as [Hsome Hfile].
  destruct (cleanup_files_log E fuel spo tok (((w ++ auth) ++ [q]) ++ post :: puts) Htok)
    as (res & q2 & dels & -> & Hq2 & Hdels).
  exists res, auth, [q], [post], puts, [q2], dels.
  rewrite <- !app_assoc. simpl. split; [done|]. split; [|done].
  unfold in_stages. simpl. rewrite Hpost, Hq, Hq2.
  repeat split; try done; lia.
Qed.

(** ** The base of the item URLs *)

(** [split_head] cuts at the first occurrence, as the library's [index]
    finds it. *)
Lemma split_head_index (sep s : string) :
  Py.split_head sep s
  = match String.index 0 sep s with
    | Some n => String.substring 0 n s
    | None => s
    end.
Proof.
  induction s as [|c rest IH]; [by destruct sep|].
  cbn [Py.split_head String.index].
  destruct (String.prefix sep (String c rest)); [done|].
  rewrite IH. by destruct (String.index 0 sep rest).
Qed.

(** X12.  The session request and the deletions are addressed below one
    base: the endpoint up to its first [/root:], the whole endpoint when it
    has none.  What follows the marker (the folder, [:/children]) plays no
    part in either URL. *)
Theorem item_urls_share_base E (self : SpoController) (tok : string)
    (dir_id file_name item_id : string) (w : world) :
  graph_token self !! "access_token" = Some tok ->
  let base := match String.index 0 "/root:" (endpoint self) with
              | Some n => String.substring 0 n (endpoint self)
              | None => endpoint self
              end in
  (exists headers payload,
     (Spo._get_upload_url E self dir_id file_name w).2
     = w ++ [Post (base +:+ "/items/" +:+ dir_id +:+ ":/" +:+ file_name
                   +:+ ":/createUploadSession") headers payload])
  /\ (exists headers,
        (Spo._delete_file E self item_id w).2
        = w ++ [Delete (base +:+ "/items/" +:+ item_id) headers]).
Proof.
  intros Htok base. unfold base. rewrite <- split_head_index. split.
  - eexists _, _. by rewrite (get_upload_url_ignores_status E self tok _ _ _ Htok).
  - eexists. by rewrite (delete_file_run E self tok Htok).
Qed.

Lemma item_urls_share_base_witness :
  (exists headers payload,
     (Spo._get_upload_url Scenario.site_dirs Sample.spo "01FOLDER" "repo.zip" []).2
     = [] ++ [Post ("https://graph.microsoft.com/v1.0/sites/contoso/drive"
                    +:+ "/items/" +:+ "01FOLDER" +:+ ":/" +:+ "repo.zip"
                    +:+ ":/createUploadSession") headers payload])
  /\ (exists headers,
        (Spo._delete_file Scenario.site_dirs Sample.spo "id-a" []).2
        = [] ++ [Delete ("https://graph.microsoft.com/v1.0/sites/contoso/drive"
                         +:+ "/items/" +:+ "id-a") headers]).
Proof.
  apply (item_urls_share_base Scenario.site_dirs Sample.spo Sample.tok
           "01FOLDER" "repo.zip" "id-a" []).
  reflexivity.
Defined.

(** ** Directories *)

Lemma dir_listed_spec (lower : string -> string) (name : string) (entries : list item) :
  Dirs.dir_listed lower name entries = true
  <-> exists x, x ∈ entries /\ lower (Py.get_str x "name") = lower name.
Proof.
  induction entries as [|x rest IH]; simpl.
  - split; [done|]. intros (x & Hx & _). by apply elem_of_nil in Hx.
  - destruct (String.eqb _ _) eqn:Heq.
    + apply String.eqb_eq in Heq. split; [|done]. intros _. exists x. split; [left|done].
    + apply String.eqb_neq in Heq. rewrite IH. split.
      * intros (y & Hy & Hname). exists y. split; [by right|done].
      * intros (y & Hy & Hname). apply elem_of_cons in Hy as [->|Hy]; [done|].
        by exists y.
Qed.

(** X13.  [check_dir] makes one query, and it is the controller's own
    endpoint that is queried, whatever endpoint is passed in.  A reply with a
    status other than 200 is handed back as the error it is; otherwise the
    directory is reported to exist exactly if some entry of the listing has
    its name, letter case apart. *)
Theorem check_dir_queries_own_endpoint E (lower : string -> string)
    (self : SpoController) (tok name endpoint_arg : string) (w : world) :
  graph_token self !! "access_token" = Some tok ->
  let q := query_call tok (endpoint self) in
  let resp := http_reply E w q in
  exists res,
    Dirs.check_dir E lower self name endpoint_arg w = (res, w ++ [q])
    /\ (status_code resp <> 200 ->
        res = Ret (QueryError (mk_jdict {[ "error" := text resp;
                                           "status" := Py.str (status_code resp) ]}
                                        None)))
    /\ (status_code resp = 200 -> json resp = None -> res = Raise JSONDecodeError)
    /\ (forall body,
          status_code resp = 200 -> json resp = Some body ->
          (is_Some (members body !! "error") -> res = Ret (QueryError body))
          /\ (members body !! "error" = None ->
              exists found,
                res = Ret (DirExists found)
                /\ (found = true
                    <-> exists x, x ∈ default [] (value body)
                                  /\ lower (Py.get_str x "name") = lower name))).
Proof.
  intros Htok q resp. unfold Dirs.check_dir. step_bind.
  rewrite (query_graph_run E self tok Htok). cbn [Py.not_str]. fold q resp.
  destruct (status_code resp =? 200) eqn:Hs.
  - apply Z.eqb_eq in Hs. destruct (json resp) as [body|] eqn:Hj.
    + case_bool_decide as Herr.
      * eexists. split; [done|]. split; [done|]. split; [done|].
        intros ? _ [= <-]. split; [done|]. intros Hnone. rewrite Hnone in Herr.
        by destruct Herr.
      * eexists. split; [done|]. split; [done|]. split; [done|].
        intros ? _ [= <-]. split; [done|]. intros _. eexists. split; [done|].
        apply dir_listed_spec.
    + exists (Raise JSONDecodeError). split; [done|]. split; [done|]. split; [done|].
      intros ? _ [=].
  - apply Z.eqb_neq in Hs. eexists. split.
    + rewrite bool_decide_eq_true_2; [done|]. simpl. rewrite lookup_insert_eq. by eexists.
    + split; [done|]. split; [done|]. done.
Qed.

Lemma check_dir_queries_own_endpoint_witness :
  Dirs.check_dir Scenario.site_dirs Scenario.lower Sample.spo "BACKUPS"
    "https://graph.microsoft.com/v1.0/sites/fabrikam/drive/root:/other:/children" []
  = (Ret (DirExists true), [] ++ [query_call Sample.tok Sample.folder]).
Proof.
  destruct (check_dir_queries_own_endpoint Scenario.site_dirs Scenario.lower
              Sample.spo Sample.tok "BACKUPS"
              "https://graph.microsoft.com/v1.0/sites/fabrikam/drive/root:/other:/children"
              [] eq_refl) as (res & Hrun & _ & _ & Hok).
  rewrite Hrun. f_equal.
  destruct (Hok (mk_jdict ∅ (Some Scenario.three_dirs)) eq_refl eq_refl) as [_ Hfound].
  destruct (Hfound eq_refl) as (found & -> & Hiff).
  do 2 f_equal. apply Hiff.
  exists (Sample.entry "id-1" "Backups" "2024-01-01T02:00:00Z").
  split; [left|reflexivity].
Defined.

(** ** The retention on a 29th of February *)

(** X14.  On a 29th of February the retention cannot work: the date one
    year on, from which the scan starts, does not exist.  With more than
    [MAX_BACKUPS] entries in the folder [cleanup_files] raises [ValueError]
    after its query, and nothing is deleted. *)
Theorem retention_raises_on_leap_day E (fuel : nat) (self : SpoController)
    (tok : string) (w : world) (body : jdict) (items : list item) :
  graph_token self !! "access_token" = Some tok ->
  month (utcnow E) = 2 ->
  day (utcnow E) = 29 ->
  Datetime.is_leap (year (utcnow E)) = true ->
  let q := query_call tok (endpoint self) in
  status_code (http_reply E w q) = 200 ->
  json (http_reply E w q) = Some body ->
  value body = Some items ->
  MAX_BACKUPS < Z.of_nat (length items) ->
  Spo.cleanup_files E (S fuel) self w = (Raise ValueError, w ++ [q]).
Proof.
  intros Htok Hm Hd Hleap q Hs Hj Hv Hbig.
  rewrite (cleanup_files_listing E self tok (S fuel) w Htok). fold q.
  rewrite Hs, Hj, Hv. simpl.
  assert (Hnew : Datetime.new (year (utcnow E) + 1) (month (utcnow E)) (day (utcnow E))
                 = None).
  { unfold Datetime.new, Datetime.days_in_month. rewrite Hm, Hd. simpl.
    assert (Datetime.is_leap (year (utcnow E) + 1) = false) as ->.
    { unfold Datetime.is_leap in *. apply andb_true_iff in Hleap as [H4 _].
      apply Z.eqb_eq in H4. apply andb_false_iff. left. apply Z.eqb_neq.
      rewrite Z.add_mod, H4 by lia. done. }
    by rewrite !andb_false_r. }
  rewrite (proj2 (Z.ltb_lt _ _)) by done. simpl.
  by rewrite Hnew.
Qed.

Lemma retention_raises_on_leap_day_witness :
  Spo.cleanup_files Scenario.site_leap_day 1 Sample.spo []
  = (Raise ValueError, [] ++ [query_call Sample.tok Sample.folder]).
Proof.
  apply (retention_raises_on_leap_day Scenario.site_leap_day 0 Sample.spo Sample.tok []
           (mk_jdict ∅ (Some Sample.six)) Sample.six).
  - reflexivity.
  - reflexivity.
  - reflexivity.
  - reflexivity.
  - reflexivity.
  - reflexivity.
  - reflexivity.
  - vm_compute. reflexivity.
Defined.

(** ** The entry point *)

Lemma append_assoc (a b c : string) : (a +:+ b) +:+ c = a +:+ b +:+ c.
Proof. induction a as [|x a IH]; [done|]. by rewrite !append_cons, IH. Qed.

(** [main] in terms of the run of [manage_spo]. *)
Lemma main_run E (fuel : nat) (now_text : string) (fs : Entry.paths) (w : world) :
  let name := Entry.archive_stem E now_text +:+ ".zip" in
  let archive := ARCHIVE_BASE +:+ name in
  let made := {[ archive ]} ∪ Entry.validate_dir ARCHIVE_BASE fs in
  Entry.main E fuel now_text fs w
  = match Main.manage_spo E fuel archive name w with
    | (Ret _, w') => (Ret tt, w', made ∖ {[ archive ]})
    | (Raise e, w') => (Raise e, w', made)
    | (Spin, w') => (Spin, w', made)
    end.
Proof.
  intros name archive made. unfold Entry.main, Entry.make_archive, Entry.remove_file.
  rewrite !append_assoc. fold name. fold archive. fold made.
  destruct (Main.manage_spo E fuel archive name w) as [[[]|e|] w']; try done.
  rewrite bool_decide_eq_true_2; [done|]. apply elem_of_union_l, elem_of_singleton. done.
Qed.

(** X15.  [main] hands [manage_spo] the archive it has just made, under the
    archive directory and the name it passes on, and ends as [manage_spo]
    ends.  The archive is removed whenever [manage_spo] returns, at whatever
    gate; when [manage_spo] raises, [main] raises with it and the archive
    stays on disk. *)
Theorem main_removes_archive_on_return E (fuel : nat) (now_text : string)
    (fs : Entry.paths) (w : world) :
  let name := Entry.archive_stem E now_text +:+ ".zip" in
  let archive := ARCHIVE_BASE +:+ name in
  exists res w' fs',
    Entry.main E fuel now_text fs w = (res, w', fs')
    /\ Main.manage_spo E fuel archive name w = (res, w')
    /\ (archive ∈ fs' <-> res <> Ret tt).
Proof.
  intros name archive. rewrite main_run. fold name. fold archive.
  destruct (Main.manage_spo E fuel archive name w) as [[[]|e|] w'].
  - eexists _, _, _. split; [done|]. split; [done|].
    rewrite elem_of_difference, elem_of_singleton. split; [tauto|done].
  - eexists _, _, _. split; [done|]. split; [done|].
    split; [done|]. intros _. apply elem_of_union_l, elem_of_singleton. done.
  - eexists _, _, _. split; [done|]. split; [done|].
    split; [done|]. intros _. apply elem_of_union_l, elem_of_singleton. done.
Qed.

(** X16.  A reply to the session request that is no JSON is not a gate but
    an exception: [main] ends with [JSONDecodeError] right after the POST,
    and the archive it made is still on disk. *)
Theorem main_leaves_archive_on_bad_session E (fuel : nat) (now_text : string)
    (fs : Entry.paths) (w w1 w2 : world) (spo : SpoController) (tok dir_id : string) :
  Spo.connect_graph E (Spo.init E) w = (Ret spo, w1) ->
  graph_token spo !! "access_token" = Some tok ->
  Spo.get_dir_id E spo (Py.rstrip ":/children/" (endpoint spo)) w1 = (Ret dir_id, w2) ->
  dir_id <> "" ->
  (forall c, is_post c = true -> json (http_reply E w2 c) = None) ->
  exists post fs',
    Entry.main E fuel now_text fs w = (Raise JSONDecodeError, w2 ++ [post], fs')
    /\ is_post post = true
    /\ ARCHIVE_BASE +:+ Entry.archive_stem E now_text +:+ ".zip" ∈ fs'.
Proof.
  intros Hconnect Htok Hdir Hid Hbad.
  rewrite main_run. cbv zeta.
  rewrite manage_spo_validated. step_bind. rewrite Hconnect.
  assert (Spo.check_token spo = true) as ->.
  { unfold Spo.check_token. apply bool_decide_eq_true_2. by eexists. }
  cbn [negb]. step_bind. cbv beta. rewrite Hdir.
  assert (Py.not_str dir_id = false) as -> by (by destruct dir_id).
  step_bind.
  destruct (upload_file_run E spo tok dir_id
              (ARCHIVE_BASE +:+ Entry.archive_stem E now_text +:+ ".zip")
              (Entry.archive_stem E now_text +:+ ".zip") w2 Htok)
    as (post & up & puts & Hpost & -> & Hcases).
  rewrite (Hbad post Hpost) in Hcases. destruct Hcases as [-> ->].
  eexists post, _. split; [done|]. split; [done|].
  apply elem_of_union_l, elem_of_singleton. done.
Qed.

Lemma main_leaves_archive_on_bad_session_witness :
  exists post fs',
    Entry.main (Sample.site_with_session Scenario.bad_gateway) 5 "2024-05-17_09-30-00"
      ∅ []
    = (Raise JSONDecodeError,
       [AcquireTokenSilent
          (mk_msal_client "0f1e2d3c" "https://login.microsoftonline.com/contoso" "s3cret")
          ["https://graph.microsoft.com/.default"];
        AcquireTokenForClient
          (mk_msal_client "0f1e2d3c" "https://login.microsoftonline.com/contoso" "s3cret")
          ["https://graph.microsoft.com/.default"];
        query_call Sample.tok
          "https://graph.microsoft.com/v1.0/sites/contoso/drive/root:/archiv"]
       ++ [post], fs')
    /\ is_post post = true
    /\ ARCHIVE_BASE
       +:+ Entry.archive_stem (Sample.site_with_session Scenario.bad_gateway)
             "2024-05-17_09-30-00"
       +:+ ".zip" ∈ fs'.
Proof.
  apply (main_leaves_archive_on_bad_session
           (Sample.site_with_session Scenario.bad_gateway) 5 "2024-05-17_09-30-00" ∅ []
           [AcquireTokenSilent
              (mk_msal_client "0f1e2d3c" "https://login.microsoftonline.com/contoso"
                 "s3cret")
              ["https://graph.microsoft.com/.default"];
            AcquireTokenForClient
              (mk_msal_client "0f1e2d3c" "https://login.microsoftonline.com/contoso"
                 "s3cret")
              ["https://graph.microsoft.com/.default"]]
           _ Sample.spo Sample.tok "01FOLDER").
  - vm_compute. reflexivity.
  - reflexivity.
  - vm_compute. reflexivity.
  - discriminate.
  - intros c Hc. destruct c; try discriminate Hc. reflexivity.
Defined.
